(** * DXC_Analytics.py: the aggregation pipeline of the analytics dashboard

    A shallow embedding of the pandas pipeline of [src/DXC_Analytics.py]:
    the pre-processing pass (lines 35-41), the monthly breakdown
    (lines 46-76), the monthly trend (lines 96-99), the average monthly
    ticket count per site (lines 137-144), the subtype breakdown
    (lines 187-203) and the Streamlit rerun with its session state
    (lines 16-17, 230-249, 285-286).

    A DataFrame is a list of rows (records); pandas' [groupby] with its
    default [sort=True] is modelled by [groupby] below, which keeps its
    groups in ascending key order; an aggregation is a function applied
    to each group.  An hours value is a binary64 value other than NaN,
    given by its exact rational value or an infinity; [None] stands
    for NaN. *)

From Stdlib Require Import List Arith Lia ZArith QArith Qabs Sorted.
From Stdlib Require Import String Ascii OrderedTypeEx.
From stdpp Require Import gmap strings.
Import ListNotations.

(* ------------------------------------------------------------------ *)
(** ** Data model *)

(** A parsed [CheckInDate] (the value of [pd.to_datetime]). *)
Record date := mkDate { year : nat; month : nat; day : nat }.

(** A binary64 value other than NaN: a finite value, given by its exact
    rational value (the rounding of binary64 is not modelled), or an
    infinity.  A float cell is an [option num], [None] being NaN. *)
Inductive num := NFin (q : Q) | NPosInf | NNegInf.

(** The raw [Hours] cell as it comes from the data source: a float, a
    string, or a missing value ([None] / NaN / absent column). *)
Inductive raw_hours := HNum (x : num) | HStr (s : string) | HNull.

(** One row of [dispatches_df].  [month_year_str] is the column added by
    the pre-processing pass; before it the column is absent ([None]). *)
Record dispatch := mkDispatch {
  CheckInDate : date;
  Hours : raw_hours;
  Site : string;
  Subtype : option string;
  Item : option string;
  month_year_str : option string
}.

(* ------------------------------------------------------------------ *)
(** ** [pd.to_numeric(..., errors='coerce')] on one cell *)

(** pandas converts a string cell with [floatify]: first [to_double],
    that is [precise_xstrtod] with trailing whitespace skipped, which
    must succeed and read the whole string; failing that, the literals
    inf, +inf, -inf, infinity, +infinity and -infinity in any case.
    Anything else raises, and [errors='coerce'] makes it NaN.  A float
    cell is kept as it is. *)

Definition is_digit (c : ascii) : bool :=
  ((48 <=? nat_of_ascii c) && (nat_of_ascii c <=? 57))%nat.

Definition digit_value (c : ascii) : Z := Z.of_nat (nat_of_ascii c - 48).

(** [isspace_ascii]: space, tab, newline, vertical tab, form feed,
    carriage return. *)
Definition is_space (c : ascii) : bool :=
  ((nat_of_ascii c =? 32) || ((9 <=? nat_of_ascii c) && (nat_of_ascii c <=? 13)))%nat.

Fixpoint skip_spaces (cs : list ascii) : list ascii :=
  match cs with
  | c :: r => if is_space c then skip_spaces r else cs
  | [] => []
  end.

Fixpoint skip_digits (cs : list ascii) : list ascii :=
  match cs with
  | c :: r => if is_digit c then skip_digits r else cs
  | [] => []
  end.

(** [max_digits] of [precise_xstrtod]. *)
Definition max_digits : nat := 17.

(** The integer digits: the first [max_digits] digits make the number,
    each further digit adds one to the exponent. *)
Fixpoint int_digits (cs : list ascii) (number : Z) (num_digits : nat) (exponent : Z)
  : Z * nat * Z * list ascii :=
  match cs with
  | c :: r =>
      if is_digit c then
        if (num_digits <? max_digits)%nat
        then int_digits r (number * 10 + digit_value c)%Z (S num_digits) exponent
        else int_digits r number num_digits (exponent + 1)%Z
      else (number, num_digits, exponent, cs)
  | [] => (number, num_digits, exponent, cs)
  end.

(** The digits after the decimal point, read while fewer than
    [max_digits] digits have been read, with how many were read. *)
Fixpoint frac_digits (cs : list ascii) (number : Z) (num_digits num_decimals : nat)
  : Z * nat * nat * list ascii :=
  match cs with
  | c :: r =>
      if is_digit c && (num_digits <? max_digits)%nat
      then frac_digits r (number * 10 + digit_value c)%Z (S num_digits) (S num_decimals)
      else (number, num_digits, num_decimals, cs)
  | [] => (number, num_digits, num_decimals, cs)
  end.

(** The exponent digits, at most [k] of them (an exponent whose digits
    overflow the C [int] of the parser is outside this model). *)
Fixpoint exp_digits (k : nat) (cs : list ascii) (n : Z) (num_digits : nat) : Z * nat * list ascii :=
  match k, cs with
  | S k', c :: r =>
      if is_digit c then exp_digits k' r (n * 10 + digit_value c)%Z (S num_digits)
      else (n, num_digits, cs)
  | _, _ => (n, num_digits, cs)
  end.

(** An optional sign: whether it is [-], and the rest. *)
Definition take_sign (cs : list ascii) : bool * list ascii :=
  match cs with
  | "-"%char :: r => (true, r)
  | "+"%char :: r => (false, r)
  | _ => (false, cs)
  end.

(** Magnitudes from [overflow_bound] on round to an infinity, magnitudes
    up to [underflow_bound] round to zero (up to the rounding of the
    last binary digit, which the exact rational values do not model). *)
Definition overflow_bound : Q := inject_Z (2 ^ 1024 - 2 ^ 970).
Definition underflow_bound : Q := (1 # Z.to_pos (2 ^ 1075)).

(** [to_double]: [precise_xstrtod] skips leading whitespace, reads a
    sign, the digits with an optional decimal point (at least one digit,
    else [ERANGE]), an optional exponent (e or E, a sign, digits; an e
    without digits is left unread), and trailing whitespace; it fails
    when something is left.  An exponent above 308 is [ERANGE]; one
    below -616 gives 0; a product that overflows to an infinity is
    [ERANGE]. *)
Definition to_double (cs : list ascii) : option num :=
  let '(negative, r0) := take_sign (skip_spaces cs) in
  let '(number0, nd0, exponent0, r1) := int_digits r0 0 0 0 in
  let '(number1, nd1, num_decimals, r2) :=
    match r1 with
    | "."%char :: r =>
        let '(n1, d1, dec1, r') := frac_digits r number0 nd0 0 in
        (n1, d1, dec1, skip_digits r')
    | _ => (number0, nd0, 0, r1)
    end in
  if (nd1 =? 0)%nat then None else
  let number := if negative then (- number1)%Z else number1 in
  let '(ev, r3) :=
    match r2 with
    | c :: r =>
        if (c =? "e")%char || (c =? "E")%char then
          let '(eneg, r4) := take_sign r in
          let '(n, nde, r5) := exp_digits max_digits r4 0 0 in
          match nde with
          | O => (0%Z, r2)
          | S _ => ((if eneg then - n else n)%Z, r5)
          end
        else (0%Z, r2)
    | [] => (0%Z, r2)
    end in
  let exponent := (exponent0 - Z.of_nat num_decimals + ev)%Z in
  match skip_spaces r3 with
  | _ :: _ => None
  | [] =>
      if (308 <? exponent)%Z then None
      else if (exponent <? -616)%Z then Some (NFin 0)
      else
        let x := (inject_Z number * Qpower (inject_Z 10) exponent)%Q in
        if Qle_bool overflow_bound (Qabs x) then None
        else if Qle_bool (Qabs x) underflow_bound then Some (NFin 0)
        else Some (NFin x)
  end.

Definition ascii_lower (c : ascii) : ascii :=
  if ((65 <=? nat_of_ascii c) && (nat_of_ascii c <=? 90))%nat
  then ascii_of_nat (nat_of_ascii c + 32) else c.

(** The infinity literals of [floatify], compared with [strcasecmp]. *)
Definition inf_literal (s : string) : option num :=
  let l := string_of_list_ascii (map ascii_lower (list_ascii_of_string s)) in
  if String.eqb l "inf" || String.eqb l "+inf" || String.eqb l "infinity" || String.eqb l "+infinity"
  then Some NPosInf
  else if String.eqb l "-inf" || String.eqb l "-infinity" then Some NNegInf
  else None.

(** [floatify]; [None] is the error that [errors='coerce'] makes NaN. *)
Definition parse_number (s : string) : option num :=
  match to_double (list_ascii_of_string s) with
  | Some x => Some x
  | None => inf_literal s
  end.

Definition to_numeric_coerce (h : raw_hours) : option num :=
  match h with
  | HNum x => Some x
  | HStr s => parse_number s
  | HNull => None
  end.

Definition fillna0 (o : option num) : num :=
  match o with Some x => x | None => NFin 0 end.



(* ------------------------------------------------------------------ *)
(** ** [dt.to_period('M').astype(str)]: the "YYYY-MM" month key *)

Definition digit (n : nat) : ascii := ascii_of_nat (48 + n).

Fixpoint pad_digits (w n : nat) : string :=
  match w with
  | 0 => ""%string
  | S w' => (pad_digits w' (n / 10) ++ String (digit (n mod 10)) "")%string
  end.

(** The number of decimal digits of [n] (1 for 0). *)
Fixpoint ndigits_fuel (fuel n : nat) : nat :=
  match fuel with
  | 0 => 1
  | S f => if n <? 10 then 1 else S (ndigits_fuel f (n / 10))
  end.

Definition ndigits (n : nat) : nat := ndigits_fuel n n.

(** [str] of a non-negative integer: its digits, without padding. *)
Definition dec_str (n : nat) : string := pad_digits (ndigits n) n.

(** [str] of a monthly [Period]: the year without padding, a dash and
    the month on two digits. *)
Definition period_str (d : date) : string :=
  (dec_str (year d) ++ "-" ++ pad_digits 2 (month d))%string.

(* ------------------------------------------------------------------ *)
(** ** The pre-processing pass (lines 35-41) *)

(** Line 35 ([pd.to_datetime]) leaves an already parsed date as it is;
    line 38 coerces [Hours] and fills NaN with 0; line 41 adds
    [month_year_str]. *)
Definition normalize_row (r : dispatch) : dispatch :=
  {| CheckInDate := CheckInDate r;
     Hours := HNum (fillna0 (to_numeric_coerce (Hours r)));
     Site := Site r;
     Subtype := Subtype r;
     Item := Item r;
     month_year_str := Some (period_str (CheckInDate r)) |}.

Definition normalize (df : list dispatch) : list dispatch := map normalize_row df.

(** The numeric value of a [Hours] cell as a float column holds it
    ([None] = NaN). *)
Definition hours_value (r : dispatch) : option num :=
  match Hours r with HNum x => Some x | _ => None end.

(** [Series.mean()] skips NaN; the mean of no value is NaN. *)
Definition Qsum (l : list Q) : Q := fold_right Qplus 0%Q l.

Definition mean (l : list Q) : option Q :=
  match l with
  | [] => None
  | _ => Some (Qsum l / inject_Z (Z.of_nat (length l)))%Q
  end.

(** Float addition on values other than NaN, [None] being the NaN of
    inf + -inf; finite sums are exact (their rounding and overflow are
    not modelled). *)
Definition num_add (x : num) (acc : option num) : option num :=
  match acc with
  | None => None
  | Some y =>
      match x, y with
      | NFin a, NFin b => Some (NFin (a + b))
      | NPosInf, NNegInf | NNegInf, NPosInf => None
      | NPosInf, _ | _, NPosInf => Some NPosInf
      | NNegInf, _ | _, NNegInf => Some NNegInf
      end
  end.

Definition num_sum (l : list num) : option num := fold_right num_add (Some (NFin 0)) l.

(** [nanmean]: the sum over the count; NaN for no value. *)
Definition num_mean (l : list num) : option num :=
  match l with
  | [] => None
  | _ =>
      match num_sum l with
      | Some (NFin s) => Some (NFin (s / inject_Z (Z.of_nat (length l))))
      | o => o
      end
  end.

Definition series_mean (l : list (option num)) : option num :=
  num_mean (flat_map (fun o => match o with Some x => [x] | None => [] end) l).

(* ------------------------------------------------------------------ *)
(** ** [DataFrame.groupby(key)] with the default [sort=True] *)

Section GroupBy.
Context {K V : Type} (cmp : K -> K -> comparison).

(** Adds row [v] to the group of key [k], keeping keys ascending. *)
Fixpoint gb_insert (k : K) (v : V) (t : list (K * list V)) : list (K * list V) :=
  match t with
  | [] => [(k, [v])]
  | (k', vs) :: t' =>
      match cmp k k' with
      | Lt => (k, [v]) :: t
      | Eq => (k', vs ++ [v]) :: t'
      | Gt => (k', vs) :: gb_insert k v t'
      end
  end.

(** Rows whose key is missing ([None], NaN) are dropped, as by the
    default [dropna=True]. *)
Definition groupby (key : V -> option K) (rows : list V) : list (K * list V) :=
  fold_left (fun t r => match key r with
                        | Some k => gb_insert k r t
                        | None => t
                        end) rows [].

(** [agg(name=('CheckInDate', 'count'))]: every row has a
    [CheckInDate], so the count of a group is its size. *)
Definition agg_count (key : V -> option K) (rows : list V) : list (K * nat) :=
  map (fun '(k, g) => (k, length g)) (groupby key rows).
End GroupBy.

Definition pair_cmp {A B : Type} (ca : A -> A -> comparison) (cb : B -> B -> comparison)
  (x y : A * B) : comparison :=
  match ca (fst x) (fst y) with
  | Eq => cb (snd x) (snd y)
  | c => c
  end.

Definition scmp : string -> string -> comparison := String.compare.

(** [sorted(xs.unique())]: the distinct values, ascending. *)
Definition sorted_unique (xs : list string) : list string :=
  map fst (groupby scmp Some xs).

Definition opt_str_eqb (o : option string) (s : string) : bool :=
  match o with Some s' => String.eqb s' s | None => false end.

Definition Q_of_nat (n : nat) : Q := inject_Z (Z.of_nat n).

(* ------------------------------------------------------------------ *)
(** ** Monthly breakdown (lines 46-76) *)

Definition breakdown_month_options (df : list dispatch) : list string :=
  rev (sorted_unique (flat_map (fun r => match month_year_str r with
                                         | Some m => [m] | None => [] end) df)).

Record breakdown := mkBreakdown {
  total_tickets : nat;
  avg_time_to_close : option num;
  tickets_per_site : list (string * nat)
}.

Definition monthly_breakdown (df : list dispatch) (selected_breakdown_month : string)
  : breakdown :=
  let selected_breakdown_df :=
    List.filter (fun r => opt_str_eqb (month_year_str r) selected_breakdown_month) df in
  {| total_tickets := length selected_breakdown_df;
     avg_time_to_close := series_mean (map hours_value selected_breakdown_df);
     tickets_per_site := agg_count scmp (fun r => Some (Site r)) selected_breakdown_df |}.

(* ------------------------------------------------------------------ *)
(** ** Monthly trend: [groupby(pd.Grouper(key='CheckInDate', freq='ME'))]
       (lines 96-99) *)

Definition is_leap (y : nat) : bool :=
  ((y mod 4 =? 0) && negb (y mod 100 =? 0)) || (y mod 400 =? 0).

Definition days_in_month (y m : nat) : nat :=
  match m with
  | 2 => if is_leap y then 29 else 28
  | 4 | 6 | 9 | 11 => 30
  | _ => 31
  end.

(** Months counted from year 0: the bin a date falls in. *)
Definition month_index (d : date) : nat := year d * 12 + (month d - 1).

(** The label of a bin: the last day of its calendar month. *)
Definition month_end (i : nat) : date :=
  mkDate (i / 12) (i mod 12 + 1) (days_in_month (i / 12) (i mod 12 + 1)).

Record trend_row := mkTrendRow {
  tr_CheckInDate : date;
  tr_total_tickets : nat;
  tr_avg_hours : option num
}.

(** A time grouper makes one bin per month end from the first to the
    last month of the data, empty bins included. *)
Definition monthly_data (df : list dispatch) : list trend_row :=
  match map (fun r => month_index (CheckInDate r)) df with
  | [] => []
  | i0 :: is =>
      let lo := fold_left Nat.min is i0 in
      let hi := fold_left Nat.max is i0 in
      map (fun i =>
             let g := List.filter (fun r => month_index (CheckInDate r) =? i) df in
             {| tr_CheckInDate := month_end i;
                tr_total_tickets := length g;
                tr_avg_hours := series_mean (map hours_value g) |})
          (seq lo (S hi - lo))
  end.

(* ------------------------------------------------------------------ *)
(** ** Average ticket count per site (lines 137-144) *)

Definition site_month_key (r : dispatch) : option (string * string) :=
  match month_year_str r with
  | Some m => Some (Site r, m)
  | None => None
  end.

Definition tickets_per_site_per_month (df : list dispatch) : list (string * string * nat) :=
  map (fun '(k, g) => (fst k, snd k, length g))
      (groupby (pair_cmp scmp scmp) site_month_key df).

Definition avg_tickets_by_site (df : list dispatch) : list (string * option Q) :=
  map (fun '(s, g) => (s, mean (map (fun '(_, _, c) => Q_of_nat c) g)))
      (groupby scmp (fun '(s, _, _) => Some s) (tickets_per_site_per_month df)).

(* ------------------------------------------------------------------ *)
(** ** Subtype breakdown (lines 187-203) *)

Definition is_some {A} (o : option A) : bool := match o with Some _ => true | None => false end.

(** [dropna(subset=['Subtype', 'Item'])] *)
Definition filtered_tickets (df : list dispatch) : list dispatch :=
  List.filter (fun r => is_some (Subtype r) && is_some (Item r)) df.

Definition monthly_filtered_data (df : list dispatch) (selected_breakdown_month_pie : string)
  : list dispatch :=
  if negb (String.eqb selected_breakdown_month_pie "All Tickets")
  then List.filter (fun r => opt_str_eqb (month_year_str r) selected_breakdown_month_pie)
                   (filtered_tickets df)
  else filtered_tickets df.

Definition data_to_chart_subtype (df : list dispatch) (selected_breakdown_month_pie : string)
  : list (string * nat) :=
  agg_count scmp Subtype (monthly_filtered_data df selected_breakdown_month_pie).

(* ------------------------------------------------------------------ *)
(** ** One Streamlit rerun of the script, with its session state *)

(** Values held in [st.session_state]. *)
Inductive sval :=
  | SNone
  | SStr (s : string)
  | SDict (d : list (string * list (option string))).

(** Python truthiness of a session value. *)
Definition truthy (v : sval) : bool :=
  match v with
  | SNone => false
  | SStr s => negb (String.eqb s "")
  | SDict d => match d with [] => false | _ => true end
  end.

(** [st.session_state] (user keys and keyed widgets) and the values of
    unkeyed widgets, which Streamlit keeps apart under the widget's label. *)
Record ui := mkUi {
  session_state : gmap string sval;
  unkeyed_widgets : gmap string string
}.

Definition ui_init : ui := mkUi ∅ ∅.

Inductive output :=
  | OWarning (msg : string)
  | OInfo (msg : string)
  | OError (exc : string)
  | OMetricTickets (n : nat)
  | OMetricAvg (a : option num)
  | OBarTicketsPerSite (month : string) (t : list (string * nat))
  | OTrend (t : list trend_row)
  | OSiteAvg (t : list (string * option Q))
  | OMonthCount (t : list (string * nat))
  | OPie (month : string) (t : list (string * nat))
  | OSubtypeSelect (from_chart : option string) (initial_index : nat) (value : string)
  | OSiteBreakdown (subtype : string) (t : list (string * nat)).

Fixpoint mem_str (x : string) (l : list string) : bool :=
  match l with [] => false | y :: l' => String.eqb x y || mem_str x l' end.

(** [list.index] on a member. *)
Fixpoint index_of (x : string) (l : list string) : nat :=
  match l with [] => 0 | y :: l' => if String.eqb x y then 0 else S (index_of x l') end.

(** [st.selectbox(..., options, index, key=k)]: the value the user
    chose, if it is still an option, else [options[index]]; a keyed
    widget stores its value in [st.session_state[k]]. *)
Definition selectbox_keyed (u : ui) (k : string) (options : list string) (index : nat)
  : string * ui :=
  let v := match session_state u !! k with
           | Some (SStr v) => if mem_str v options then v else nth index options ""%string
           | _ => nth index options ""%string
           end in
  (v, mkUi (<[k := SStr v]> (session_state u)) (unkeyed_widgets u)).

Definition selectbox_unkeyed (u : ui) (label : string) (options : list string) (index : nat)
  : string * ui :=
  let v := match unkeyed_widgets u !! label with
           | Some v => if mem_str v options then v else nth index options ""%string
           | None => nth index options ""%string
           end in
  (v, mkUi (session_state u) (<[label := v]> (unkeyed_widgets u))).

(** Lines 16-17. *)
Definition init_selection (u : ui) : ui :=
  match session_state u !! "selection"%string with
  | None => mkUi (<[ "selection"%string := SNone ]> (session_state u)) (unkeyed_widgets u)
  | Some _ => u
  end.

(** Lines 231-233: [st.session_state.selection.get('Subtype', [None])[0]];
    [inr] is the exception raised on a value that is not a dict. *)
Definition subtype_from_chart (ss : gmap string sval) : option string + string :=
  let sel := match ss !! "selection"%string with Some v => v | None => SNone end in
  if negb (bool_decide (ss = ∅)) && truthy sel then
    match sel with
    | SDict d =>
        match List.find (fun kv => String.eqb (fst kv) "Subtype") d with
        | Some (_, o :: _) => inl o
        | Some (_, []) => inr "IndexError"%string
        | None => inl None
        end
    | _ => inr "AttributeError"%string
    end
  else inl None.

(** Lines 239-241. *)
Definition initial_index_of (from_chart : option string) (subtype_options : list string) : nat :=
  match from_chart with
  | Some v => if negb (String.eqb v "") && mem_str v subtype_options
              then index_of v subtype_options else 0
  | None => 0
  end.

Definition months_of (df : list dispatch) : list string :=
  flat_map (fun r => match month_year_str r with Some m => [m] | None => [] end) df.

(** The subtype section (lines 186-283), from the pie month selector on. *)
Definition subtype_section (u : ui) (df : list dispatch) : ui * list output :=
  let pie_options := "All Tickets"%string :: sorted_unique (months_of (filtered_tickets df)) in
  let '(pie_month, u1) := selectbox_unkeyed u "Select a Month for Breakdown" pie_options 0 in
  let mfd := monthly_filtered_data df pie_month in
  let subtype_table := data_to_chart_subtype df pie_month in
  let pie := OPie pie_month subtype_table in
  match subtype_from_chart (session_state u1) with
  | inr exc => (u1, [pie; OError exc])
  | inl from_chart =>
      let subtype_options := "All Subtypes"%string :: sorted_unique (map fst subtype_table) in
      let initial_index := initial_index_of from_chart subtype_options in
      let '(selected_subtype, u2) :=
        selectbox_keyed u1 "subtype_select_box" subtype_options initial_index in
      let sel := OSubtypeSelect from_chart initial_index selected_subtype in
      let right :=
        if negb (String.eqb selected_subtype "All Subtypes") then
          let filtered_by_subtype :=
            List.filter (fun r => opt_str_eqb (Subtype r) selected_subtype) mfd in
          match filtered_by_subtype with
          | [] => OInfo "No site data found for this subtype."
          | _ => OSiteBreakdown selected_subtype
                   (agg_count scmp (fun r => Some (Site r)) filtered_by_subtype)
          end
        else OInfo "Select a subtype from the dropdown or the pie chart to view the Site Breakdown." in
      (u2, [pie; sel; right])
  end.

Definition no_data_warning : string :=
  "No data found in the `live_dispatches` table. Please check your database connection and table name.".

(** The whole script on the rows [fetch_data] returned. *)
Definition rerun (u : ui) (fetched : list dispatch) : ui * list output :=
  let u0 := init_selection u in
  match fetched with
  | [] => (u0, [OWarning no_data_warning])
  | _ =>
      let df := normalize fetched in
      let '(m, u1) := selectbox_keyed u0 "breakdown_month_selector"
                                         (breakdown_month_options df) 0 in
      let b := monthly_breakdown df m in
      let outs1 := [OMetricTickets (total_tickets b); OMetricAvg (avg_time_to_close b);
                    OBarTicketsPerSite m (tickets_per_site b);
                    OTrend (monthly_data df);
                    OSiteAvg (avg_tickets_by_site df);
                    OMonthCount (agg_count scmp month_year_str df)] in
      let '(u2, outs2) := subtype_section u1 df in
      (u2, outs1 ++ outs2)
  end.

(** What a user can do between two reruns: pick a value in a keyed
    widget (stored under its key), pick one in an unkeyed widget, or click
    a pie slice.  [st.altair_chart] is called without [on_select], so a
    click leaves the session state as it is. *)
Inductive event :=
  | EvSelectKeyed (k : string) (v : string)
  | EvSelectUnkeyed (label : string) (v : string)
  | EvChartClick (subtype : string).

Definition widget_keys : list string :=
  ["breakdown_month_selector"; "subtype_select_box"]%string.

Definition apply_event (e : event) (u : ui) : ui :=
  match e with
  | EvSelectKeyed k v =>
      if mem_str k widget_keys
      then mkUi (<[k := SStr v]> (session_state u)) (unkeyed_widgets u)
      else u
  | EvSelectUnkeyed l v => mkUi (session_state u) (<[l := v]> (unkeyed_widgets u))
  | EvChartClick _ => u
  end.

Inductive reachable : ui -> Prop :=
  | reach_init : reachable ui_init
  | reach_rerun u df : reachable u -> reachable (fst (rerun u df))
  | reach_event u e : reachable u -> reachable (apply_event e u).

(* ------------------------------------------------------------------ *)
(** ** Facts about [groupby] for a comparison that is a strict total order *)

Section GroupByFacts.
Context {K V : Type} (cmp : K -> K -> comparison).
Hypothesis cmp_eq : forall a b, cmp a b = Eq <-> a = b.
Hypothesis cmp_anti : forall a b, cmp a b = CompOpp (cmp b a).
Hypothesis cmp_trans : forall a b c, cmp a b = Lt -> cmp b c = Lt -> cmp a c = Lt.

Definition klt (x y : K * list V) : Prop := cmp (fst x) (fst y) = Lt.

Definition gb_step (key : V -> option K) (t : list (K * list V)) (r : V) :=
  match key r with Some k => gb_insert cmp k r t | None => t end.

Lemma groupby_fold (key : V -> option K) (rows : list V) :
  groupby cmp key rows = fold_left (gb_step key) rows [].
Proof. reflexivity. Qed.

Fixpoint group_of (k : K) (t : list (K * list V)) : list V :=
  match t with
  | [] => []
  | (k', vs) :: t' => match cmp k k' with Eq => vs | _ => group_of k t' end
  end.

Definition key_is (key : V -> option K) (k : K) (r : V) : bool :=
  match key r with
  | Some k' => match cmp k k' with Eq => true | _ => false end
  | None => false
  end.

Lemma cmp_refl (a : K) : cmp a a = Eq.
Proof. apply cmp_eq. reflexivity. Qed.

Lemma cmp_gt_lt (a b : K) : cmp a b = Gt -> cmp b a = Lt.
Proof. intros H. rewrite cmp_anti, H. reflexivity. Qed.

Lemma gb_insert_forall (P : K -> Prop) (k : K) (v : V) (t : list (K * list V)) :
  Forall (fun x => P (fst x)) t -> P k -> Forall (fun x => P (fst x)) (gb_insert cmp k v t).
Proof.
  induction t as [|[k' vs] t IH]; simpl; intros Ht Hk.
  - constructor; [exact Hk | constructor].
  - inversion Ht as [|? ? Hk' Ht']; subst.
    destruct (cmp k k'); constructor; simpl; auto.
Qed.

Lemma gb_insert_sorted (k : K) (v : V) (t : list (K * list V)) :
  StronglySorted klt t -> StronglySorted klt (gb_insert cmp k v t).
Proof.
  induction t as [|[k' vs] t IH]; simpl; intros Hs.
  - repeat constructor.
  - inversion Hs as [|? ? Hs' Hf]; subst. destruct (cmp k k') eqn:E.
    + constructor; [exact Hs'|]. exact Hf.
    + constructor; [exact Hs|]. constructor; [exact E|].
      rewrite List.Forall_forall in *. intros y Hy. exact (cmp_trans _ _ _ E (Hf y Hy)).
    + constructor; [apply IH, Hs'|].
      apply (gb_insert_forall (fun x => cmp k' x = Lt)); [exact Hf|].
      apply cmp_gt_lt, E.
Qed.

Lemma group_of_lt (k : K) (t : list (K * list V)) :
  Forall (fun x => cmp k (fst x) = Lt) t -> group_of k t = [].
Proof.
  induction t as [|[k' vs] t IH]; simpl; intros Ht; [reflexivity|].
  inversion Ht as [|? ? Hk Ht']; subst. simpl in Hk. rewrite Hk. apply IH, Ht'.
Qed.

Lemma group_of_insert (k k' : K) (v : V) (t : list (K * list V)) :
  StronglySorted klt t ->
  group_of k (gb_insert cmp k' v t) =
    match cmp k k' with Eq => group_of k t ++ [v] | _ => group_of k t end.
Proof.
  induction t as [|[k0 vs] t IH]; intros Hs; simpl.
  - destruct (cmp k k'); reflexivity.
  - inversion Hs as [|? ? Hs' Hf]; subst. destruct (cmp k' k0) eqn:E0.
    + apply cmp_eq in E0. subst k0. simpl. destruct (cmp k k'); reflexivity.
    + simpl. destruct (cmp k k') eqn:E1; [|reflexivity|reflexivity].
      apply cmp_eq in E1. subst k. rewrite E0.
      rewrite group_of_lt; [reflexivity|].
      rewrite List.Forall_forall in *. intros y Hy. exact (cmp_trans _ _ _ E0 (Hf y Hy)).
    + simpl. destruct (cmp k k0) eqn:E1.
      * apply cmp_eq in E1. subst k. rewrite (cmp_gt_lt _ _ E0). reflexivity.
      * rewrite IH by exact Hs'. reflexivity.
      * rewrite IH by exact Hs'. reflexivity.
Qed.

Lemma groupby_fold_spec (key : V -> option K) (rows : list V) (t : list (K * list V)) :
  StronglySorted klt t ->
  StronglySorted klt (fold_left (gb_step key) rows t) /\
  forall k, group_of k (fold_left (gb_step key) rows t) =
            group_of k t ++ List.filter (key_is key k) rows.
Proof.
  revert t; induction rows as [|r rows IH]; intros t Hs; simpl.
  - split; [exact Hs|]. intros k. rewrite app_nil_r. reflexivity.
  - assert (Hs1 : StronglySorted klt (gb_step key t r)).
    { unfold gb_step. destruct (key r); [apply gb_insert_sorted, Hs | exact Hs]. }
    destruct (IH _ Hs1) as [Hs2 Hg]. split; [exact Hs2|]. intros k. rewrite Hg.
    unfold gb_step, key_is. destruct (key r) as [k'|].
    + rewrite group_of_insert by exact Hs.
      destruct (cmp k k'); [rewrite <- app_assoc; reflexivity | reflexivity | reflexivity].
    + reflexivity.
Qed.

Lemma groupby_sorted (key : V -> option K) (rows : list V) :
  StronglySorted klt (groupby cmp key rows).
Proof. rewrite groupby_fold. apply groupby_fold_spec. constructor. Qed.

Lemma group_of_groupby (key : V -> option K) (rows : list V) (k : K) :
  group_of k (groupby cmp key rows) = List.filter (key_is key k) rows.
Proof.
  rewrite groupby_fold. apply groupby_fold_spec. constructor.
Qed.

Lemma in_sorted_group_of (t : list (K * list V)) (k : K) (g : list V) :
  StronglySorted klt t -> In (k, g) t -> group_of k t = g.
Proof.
  induction t as [|[k' vs] t IH]; simpl; intros Hs Hin; [contradiction|].
  inversion Hs as [|? ? Hs' Hf]; subst. destruct Hin as [Heq|Hin].
  - injection Heq as -> ->. rewrite cmp_refl. reflexivity.
  - rewrite List.Forall_forall in Hf. specialize (Hf _ Hin). unfold klt in Hf. simpl in Hf.
    rewrite cmp_anti, Hf. simpl. apply IH; assumption.
Qed.

(** Each group of the result holds exactly the rows of its key. *)
Lemma in_groupby (key : V -> option K) (rows : list V) (k : K) (g : list V) :
  In (k, g) (groupby cmp key rows) -> g = List.filter (key_is key k) rows.
Proof.
  intros Hin. rewrite <- (group_of_groupby key rows k).
  symmetry. apply in_sorted_group_of; [apply groupby_sorted | exact Hin].
Qed.

Definition wsum (w : K -> nat) (t : list (K * list V)) : nat :=
  list_sum (map (fun kg => length (snd kg) * w (fst kg)) t).

Lemma wsum_insert (w : K -> nat) (k : K) (v : V) (t : list (K * list V)) : wsum w (gb_insert cmp k v t) = w k + wsum w t.
Proof.
  unfold wsum. induction t as [|[k' vs] t IH]; simpl; [lia|].
  destruct (cmp k k') eqn:E; simpl.
  - apply cmp_eq in E. subst. rewrite length_app. simpl. lia.
  - lia.
  - rewrite IH. lia.
Qed.

(** Weighted count of the rows by the groups they fall in. *)
Lemma groupby_wsum (key : V -> option K) (rows : list V) (w : K -> nat) :
  wsum w (groupby cmp key rows) =
  list_sum (map (fun r => match key r with Some k => w k | None => 0 end) rows).
Proof.
  rewrite groupby_fold.
  enough (H : forall t, wsum w (fold_left (gb_step key) rows t) =
     wsum w t + list_sum (map (fun r => match key r with Some k => w k | None => 0 end) rows))
    by (rewrite H; reflexivity).
  induction rows as [|r rows IH]; intros t; simpl; [lia|].
  rewrite IH. unfold gb_step. destruct (key r); [rewrite wsum_insert|]; lia.
Qed.
Lemma gb_insert_keys (k k' : K) (v : V) (t : list (K * list V)) :
  In k' (map fst (gb_insert cmp k v t)) <-> k' = k \/ In k' (map fst t).
Proof.
  induction t as [|[k0 vs] t IH]; simpl.
  - intuition congruence.
  - destruct (cmp k k0) eqn:E; simpl.
    + apply cmp_eq in E. subst k0. intuition congruence.
    + intuition congruence.
    + rewrite IH. intuition congruence.
Qed.

Lemma groupby_keys (key : V -> option K) (rows : list V) (k : K) :
  In k (map fst (groupby cmp key rows)) <-> exists r, In r rows /\ key r = Some k.
Proof.
  rewrite groupby_fold.
  enough (H : forall t, In k (map fst (fold_left (gb_step key) rows t)) <->
                        In k (map fst t) \/ exists r, In r rows /\ key r = Some k)
    by (rewrite H; simpl; intuition).
  induction rows as [|r rows IH]; intros t; simpl.
  - split; [tauto|]. intros [H|[r [[] _]]]. exact H.
  - rewrite IH. unfold gb_step. destruct (key r) as [k'|] eqn:Er.
    + rewrite gb_insert_keys. split.
      * intros [[->|H]|[r' [Hr' Hk]]]; [right; exists r; auto|left; exact H|].
        right. exists r'. auto.
      * intros [H|[r' [[<-|Hr'] Hk]]]; [left; right; exact H| |right; exists r'; auto].
        left; left. rewrite Er in Hk. congruence.
    + split.
      * intros [H|[r' [Hr' Hk]]]; [left; exact H|right; exists r'; auto].
      * intros [H|[r' [[<-|Hr'] Hk]]]; [left; exact H| congruence |right; exists r'; auto].
Qed.

Lemma key_is_true (key : V -> option K) (k : K) (r : V) :
  key_is key k r = true <-> key r = Some k.
Proof.
  unfold key_is. destruct (key r) as [k'|]; [|split; discriminate].
  destruct (cmp k k') eqn:E.
  - apply cmp_eq in E. subst. tauto.
  - split; [discriminate|]. intros H. injection H as ->. rewrite cmp_refl in E. discriminate.
  - split; [discriminate|]. intros H. injection H as ->. rewrite cmp_refl in E. discriminate.
Qed.

(** [agg_count] has one row per key present, with the number of rows
    of that key. *)
Lemma agg_count_spec (key : V -> option K) (rows : list V) (k : K) (c : nat) :
  In (k, c) (agg_count cmp key rows) <->
  c = length (List.filter (key_is key k) rows) /\ 0 < c.
Proof.
  unfold agg_count. rewrite in_map_iff. split.
  - intros [[k' g] [Heq Hin]]. injection Heq as <- <-.
    pose proof (in_groupby key rows k' g Hin) as Hg. split; [rewrite Hg; reflexivity|].
    assert (Hk : In k' (map fst (groupby cmp key rows))).
    { apply in_map_iff. exists (k', g). auto. }
    apply groupby_keys in Hk. destruct Hk as [r [Hr Hkr]].
    rewrite Hg. destruct (List.filter (key_is key k') rows) eqn:Ef; simpl; [|lia].
    assert (Hin' : In r (List.filter (key_is key k') rows)).
    { apply filter_In. split; [exact Hr|]. apply key_is_true, Hkr. }
    rewrite Ef in Hin'. contradiction.
  - intros [Hc Hpos]. destruct (List.filter (key_is key k) rows) as [|r l] eqn:Ef.
    + simpl in Hc. lia.
    + assert (Hin : In r (List.filter (key_is key k) rows)) by (rewrite Ef; left; reflexivity).
      apply filter_In in Hin. destruct Hin as [Hr Hkr]. apply key_is_true in Hkr.
      assert (Hk : In k (map fst (groupby cmp key rows)))
        by (apply groupby_keys; exists r; auto).
      apply in_map_iff in Hk. destruct Hk as [[k' g] [Hk' Hin]]. simpl in Hk'. subst k'.
      exists (k, g). split; [|exact Hin].
      rewrite (in_groupby key rows k g Hin), Ef, <- Hc. reflexivity.
Qed.

Lemma agg_count_sorted (key : V -> option K) (rows : list V) :
  StronglySorted (fun x y => cmp (fst x) (fst y) = Lt) (agg_count cmp key rows).
Proof.
  unfold agg_count. pose proof (groupby_sorted key rows) as Hs.
  induction Hs as [|[k g] t Hs IH Hf]; simpl; constructor; [exact IH|].
  rewrite List.Forall_forall in *. intros [k' c] Hin. apply in_map_iff in Hin.
  destruct Hin as [[k'' g'] [Heq Hin]]. injection Heq as <- <-. exact (Hf _ Hin).
Qed.

(** The counts of [agg_count] add up to the number of rows with a key. *)
Lemma agg_count_total (key : V -> option K) (rows : list V) :
  list_sum (map snd (agg_count cmp key rows)) =
  length (List.filter (fun r => is_some (key r)) rows).
Proof.
  pose proof (groupby_wsum key rows (fun _ => 1)) as H. unfold wsum in H.
  unfold agg_count. rewrite map_map.
  replace (map (fun x => snd (let '(k, g) := x in (k, length g))) (groupby cmp key rows))
    with (map (fun kg => length (snd kg) * 1) (groupby cmp key rows)).
  2:{ apply map_ext. intros [k g]. simpl. lia. }
  rewrite H. clear H. induction rows as [|r rows IH]; simpl; [reflexivity|].
  destruct (key r); simpl; rewrite IH; reflexivity.
Qed.
End GroupByFacts.

Lemma scmp_eq a b : scmp a b = Eq <-> a = b.
Proof. apply String_as_OT.cmp_eq. Qed.

Lemma scmp_anti a b : scmp a b = CompOpp (scmp b a).
Proof. apply String_as_OT.cmp_antisym. Qed.

Lemma scmp_trans a b c : scmp a b = Lt -> scmp b c = Lt -> scmp a c = Lt.
Proof.
  unfold scmp. rewrite !String_as_OT.cmp_lt. intros H1 H2.
  eapply String_as_OT.lt_trans; eassumption.
Qed.

Section PairCmp.
Context {A B : Type} (ca : A -> A -> comparison) (cb : B -> B -> comparison).
Hypothesis ca_eq : forall a b, ca a b = Eq <-> a = b.
Hypothesis ca_anti : forall a b, ca a b = CompOpp (ca b a).
Hypothesis ca_trans : forall a b c, ca a b = Lt -> ca b c = Lt -> ca a c = Lt.
Hypothesis cb_eq : forall a b, cb a b = Eq <-> a = b.
Hypothesis cb_anti : forall a b, cb a b = CompOpp (cb b a).
Hypothesis cb_trans : forall a b c, cb a b = Lt -> cb b c = Lt -> cb a c = Lt.

Lemma pair_cmp_eq (x y : A * B) : pair_cmp ca cb x y = Eq <-> x = y.
Proof.
  destruct x as [x1 x2], y as [y1 y2]. unfold pair_cmp; simpl.
  destruct (ca x1 y1) eqn:E1.
  - apply ca_eq in E1. subst. rewrite cb_eq. split; [intros ->|intros H; injection H]; auto.
  - split; [discriminate|]. intros H. injection H as -> ->.
    rewrite (proj2 (ca_eq y1 y1) eq_refl) in E1. discriminate.
  - split; [discriminate|]. intros H. injection H as -> ->.
    rewrite (proj2 (ca_eq y1 y1) eq_refl) in E1. discriminate.
Qed.

Lemma pair_cmp_anti (x y : A * B) : pair_cmp ca cb x y = CompOpp (pair_cmp ca cb y x).
Proof.
  unfold pair_cmp. rewrite (ca_anti (fst x)).
  destruct (ca (fst y) (fst x)); simpl; [apply cb_anti|reflexivity|reflexivity].
Qed.

Lemma pair_cmp_trans (x y z : A * B) :
  pair_cmp ca cb x y = Lt -> pair_cmp ca cb y z = Lt -> pair_cmp ca cb x z = Lt.
Proof.
  unfold pair_cmp.
  destruct (ca (fst x) (fst y)) eqn:E1; try discriminate;
  destruct (ca (fst y) (fst z)) eqn:E2; try discriminate; intros H1 H2.
  - apply ca_eq in E1, E2. rewrite E1, E2, (proj2 (ca_eq _ _) eq_refl).
    exact (cb_trans _ _ _ H1 H2).
  - apply ca_eq in E1. rewrite E1, E2. reflexivity.
  - apply ca_eq in E2. rewrite <- E2, E1. reflexivity.
  - rewrite (ca_trans _ _ _ E1 E2). reflexivity.
Qed.
End PairCmp.

Lemma key_is_site (s : string) (r : dispatch) :
  key_is scmp (fun r => Some (Site r)) s r = String.eqb (Site r) s.
Proof.
  unfold key_is. destruct (String.eqb (Site r) s) eqn:E.
  - apply String.eqb_eq in E. rewrite E. rewrite (proj2 (scmp_eq s s) eq_refl). reflexivity.
  - destruct (scmp s (Site r)) eqn:E'; try reflexivity.
    apply scmp_eq in E'. subst. rewrite String.eqb_refl in E. discriminate.
Qed.

(** The order in which values are first seen, duplicates dropped. *)
Fixpoint first_seen (seen : list string) (l : list string) : list string :=
  match l with
  | [] => []
  | x :: l' => if mem_str x seen then first_seen seen l' else x :: first_seen (x :: seen) l'
  end.

(** Two tickets of January 2024: site "B" first, then site "A". *)
Definition ex_two_sites : list dispatch :=
  [ mkDispatch (mkDate 2024 1 3) (HNum (NFin 1)) "B" None None None;
    mkDispatch (mkDate 2024 1 4) (HNum (NFin 1)) "A" None None None ].

Lemma month_index_end (i : nat) : month_index (month_end i) = i.
Proof.
  unfold month_index, month_end. cbn [year month]. pose proof (Nat.div_mod_eq i 12). lia.
Qed.

Lemma fold_min_le (l : list nat) (a : nat) :
  fold_left Nat.min l a <= a /\ Forall (fun x => fold_left Nat.min l a <= x) l.
Proof.
  revert a; induction l as [|x l IH]; intros a; simpl; [split; [lia|constructor]|].
  destruct (IH (Nat.min a x)) as [H1 H2]. split; [lia|]. constructor; [lia|exact H2].
Qed.

Lemma fold_min_in (l : list nat) (a : nat) :
  fold_left Nat.min l a = a \/ In (fold_left Nat.min l a) l.
Proof.
  revert a; induction l as [|x l IH]; intros a; simpl; [left; reflexivity|].
  destruct (IH (Nat.min a x)) as [H|H]; [|right; right; exact H].
  rewrite H. destruct (Nat.min_dec a x) as [E|E]; rewrite E; [left|right; left]; reflexivity.
Qed.

Lemma fold_max_ge (l : list nat) (a : nat) :
  a <= fold_left Nat.max l a /\ Forall (fun x => x <= fold_left Nat.max l a) l.
Proof.
  revert a; induction l as [|x l IH]; intros a; simpl; [split; [lia|constructor]|].
  destruct (IH (Nat.max a x)) as [H1 H2]. split; [lia|]. constructor; [lia|exact H2].
Qed.

Lemma fold_max_in (l : list nat) (a : nat) :
  fold_left Nat.max l a = a \/ In (fold_left Nat.max l a) l.
Proof.
  revert a; induction l as [|x l IH]; intros a; simpl; [left; reflexivity|].
  destruct (IH (Nat.max a x)) as [H|H]; [|right; right; exact H].
  rewrite H. destruct (Nat.max_dec a x) as [E|E]; rewrite E; [left|right; left]; reflexivity.
Qed.

(** Tickets of January and March 2024, none in February. *)
Definition ex_gap : list dispatch :=
  [ mkDispatch (mkDate 2024 1 10) (HNum (NFin 1)) "A" None None None;
    mkDispatch (mkDate 2024 3 10) (HNum (NFin 3)) "A" None None None ].

(* ------------------------------------------------------------------ *)
(** ** Arithmetic of counts and averages *)

Definition sumsq (l : list nat) : nat := list_sum (map (fun c => c * c) l).

Lemma two_mul_le (x y : nat) : 2 * x * y <= y * y + x * x.
Proof.
  destruct (Nat.le_ge_cases x y) as [H|H]; apply Nat.le_exists_sub in H;
    destruct H as [d [-> _]]; nia.
Qed.

Lemma two_mul_lt (x y : nat) : y <> x -> 2 * x * y < y * y + x * x.
Proof.
  intros Hne. destruct (Nat.lt_total x y) as [H|[H|H]]; [| congruence |].
  - apply Nat.le_exists_sub in H. destruct H as [d [-> _]]. nia.
  - apply Nat.le_exists_sub in H. destruct H as [d [-> _]]. nia.
Qed.

Lemma cross_le (x : nat) (l : list nat) :
  2 * x * list_sum l <= sumsq l + length l * (x * x).
Proof.
  unfold sumsq. induction l as [|y l IH]; simpl; [lia|].
  pose proof (two_mul_le x y). nia.
Qed.

Lemma cross_lt (x : nat) (l : list nat) :
  (exists y, In y l /\ y <> x) -> 2 * x * list_sum l < sumsq l + length l * (x * x).
Proof.
  unfold sumsq. induction l as [|y l IH]; simpl; intros [z [Hz Hne]]; [contradiction|].
  pose proof (cross_le x l) as Hl. unfold sumsq in Hl.
  destruct Hz as [<-|Hz].
  - pose proof (two_mul_lt x y Hne). nia.
  - pose proof (two_mul_le x y).
    assert (2 * x * list_sum l < list_sum (map (fun c => c * c) l) + length l * (x * x))
      by (apply IH; exists z; auto).
    nia.
Qed.

(** Cauchy-Schwarz for counts: [(sum l)^2 <= length l * sumsq l]. *)
Lemma sum_sq_le (l : list nat) : list_sum l * list_sum l <= length l * sumsq l.
Proof.
  induction l as [|x l IH]; simpl; [lia|].
  pose proof (cross_le x l). unfold sumsq in *. simpl. nia.
Qed.

(** ... and it is strict as soon as two counts differ. *)
Lemma sum_sq_lt (l : list nat) :
  (exists a b, In a l /\ In b l /\ a <> b) -> list_sum l * list_sum l < length l * sumsq l.
Proof.
  induction l as [|x l IH]; simpl; intros [a [b [Ha [Hb Hab]]]]; [contradiction|].
  unfold sumsq in *. simpl.
  destruct Ha as [<-|Ha], Hb as [<-|Hb].
  - contradiction.
  - pose proof (cross_lt x l (ex_intro _ b (conj Hb (not_eq_sym Hab)))).
    pose proof (sum_sq_le l). unfold sumsq in *. nia.
  - pose proof (cross_lt x l (ex_intro _ a (conj Ha Hab))).
    pose proof (sum_sq_le l). unfold sumsq in *. nia.
  - pose proof (cross_le x l).
    assert (list_sum l * list_sum l < length l * list_sum (map (fun c => c * c) l))
      by (apply IH; exists a, b; auto).
    unfold sumsq in *. nia.
Qed.

Lemma Q_of_nat_succ (n : nat) : Q_of_nat (S n) = inject_Z (Zpos (Pos.of_succ_nat n)).
Proof. reflexivity. Qed.

(** Two quotients of counts are equal iff the cross products are. *)
Lemma Qdiv_nat_eq (a b c d : nat) :
  0 < b -> 0 < d ->
  (Q_of_nat a / Q_of_nat b == Q_of_nat c / Q_of_nat d)%Q <-> a * d = c * b.
Proof.
  intros Hb Hd. destruct b as [|b]; [lia|]. destruct d as [|d]; [lia|].
  rewrite !Q_of_nat_succ. unfold Q_of_nat. rewrite <- !Qmake_Qdiv.
  unfold Qeq. simpl. rewrite !Zpos_P_of_succ_nat. lia.
Qed.

Lemma Qsum_nat (l : list nat) : (Qsum (map Q_of_nat l) == Q_of_nat (list_sum l))%Q.
Proof.
  induction l as [|x l IH]; simpl; [reflexivity|].
  rewrite IH. unfold Q_of_nat. rewrite Nat2Z.inj_add, inject_Z_plus. reflexivity.
Qed.

Lemma mean_nat (l : list nat) :
  l <> [] ->
  exists q, mean (map Q_of_nat l) = Some q /\
            (q == Q_of_nat (list_sum l) / Q_of_nat (length l))%Q.
Proof.
  intros Hne. destruct l as [|x l']; [contradiction|].
  eexists. split; [reflexivity|].
  change (inject_Z (Z.of_nat (length (map Q_of_nat (x :: l'))))) with (Q_of_nat (length (map Q_of_nat (x :: l')))).
  rewrite length_map, Qsum_nat. reflexivity.
Qed.

(* ------------------------------------------------------------------ *)
(** ** The quantities the average of a site is compared with *)

(** The records of site [s] that have a month. *)
Definition site_records (s : string) (df : list dispatch) : list dispatch :=
  List.filter (fun r => String.eqb (Site r) s && is_some (month_year_str r)) df.

(** The distinct months in which site [s] has a record. *)
Definition site_months (s : string) (df : list dispatch) : list string :=
  nodup string_dec (months_of (site_records s df)).

(** The distinct months of the data. *)
Definition all_months (df : list dispatch) : list string :=
  nodup string_dec (months_of df).

(** The number of records of site [s] in month [m]. *)
Definition site_month_count (s m : string) (df : list dispatch) : nat :=
  length (List.filter (fun r => String.eqb (Site r) s && opt_str_eqb (month_year_str r) m) df).

Definition opt_eqb (o o' : option string) : bool :=
  match o, o' with
  | Some a, Some b => String.eqb a b
  | None, None => true
  | _, _ => false
  end.

(** The number of records that share site and month with [r]. *)
Definition same_month_count (r : dispatch) (df : list dispatch) : nat :=
  length (List.filter (fun r' => String.eqb (Site r') (Site r)
                                 && opt_eqb (month_year_str r') (month_year_str r)) df).

(** The single-stage ("flat") alternative: the monthly count averaged
    over the site's records instead of over its months, so that a busy
    month weighs once per ticket. *)
Definition flat_site_average (s : string) (df : list dispatch) : option Q :=
  mean (map (fun r => Q_of_nat (same_month_count r df)) (site_records s df)).

(* ------------------------------------------------------------------ *)
(** ** The two stages of [avg_tickets_by_site] *)

Definition pcmp : string * string -> string * string -> comparison := pair_cmp scmp scmp.

Lemma pcmp_eq (x y : string * string) : pcmp x y = Eq <-> x = y.
Proof. apply pair_cmp_eq; apply scmp_eq. Qed.

Lemma pcmp_anti (x y : string * string) : pcmp x y = CompOpp (pcmp y x).
Proof. apply pair_cmp_anti; apply scmp_anti. Qed.

Lemma pcmp_trans (x y z : string * string) : pcmp x y = Lt -> pcmp y z = Lt -> pcmp x z = Lt.
Proof. apply pair_cmp_trans; [apply scmp_eq | apply scmp_trans | apply scmp_trans]. Qed.

Lemma filter_map_comm {A B : Type} (f : A -> B) (p : B -> bool) (l : list A) :
  List.filter p (map f l) = map f (List.filter (fun x => p (f x)) l).
Proof.
  induction l as [|x l IH]; simpl; [reflexivity|].
  destruct (p (f x)); simpl; rewrite IH; reflexivity.
Qed.

Lemma StronglySorted_NoDup {A : Type} (R : A -> A -> Prop) (l : list A) :
  (forall x, ~ R x x) -> StronglySorted R l -> List.NoDup l.
Proof.
  intros Hirr Hs. induction Hs as [|x l Hs IH Hf]; constructor; [|exact IH].
  intros Hin. rewrite List.Forall_forall in Hf. exact (Hirr x (Hf x Hin)).
Qed.

(** The first-stage groups of site [s] and their sizes. *)
Definition site_groups (s : string) (df : list dispatch) : list ((string * string) * list dispatch) :=
  List.filter (fun kg => String.eqb (fst (fst kg)) s) (groupby pcmp site_month_key df).

Definition site_counts (s : string) (df : list dispatch) : list nat :=
  map (fun kg => length (snd kg)) (site_groups s df).

Lemma key_is_site_month (k : string * string) (r : dispatch) :
  key_is pcmp site_month_key k r = true <-> site_month_key r = Some k.
Proof. apply key_is_true, pcmp_eq. Qed.

Lemma site_month_key_some (r : dispatch) (k : string * string) :
  site_month_key r = Some k <-> month_year_str r = Some (snd k) /\ Site r = fst k.
Proof.
  destruct k as [s m]. unfold site_month_key. simpl.
  destruct (month_year_str r) as [m'|]; split.
  - intros H. injection H as -> ->. auto.
  - intros [H ->]. injection H as ->. reflexivity.
  - discriminate.
  - intros [H _]. discriminate.
Qed.

Lemma scmp_is_eqb (s k : string) :
  match scmp s k with Eq => true | _ => false end = String.eqb k s.
Proof.
  destruct (String.eqb k s) eqn:E.
  - apply String.eqb_eq in E. subst. rewrite (proj2 (scmp_eq s s) eq_refl). reflexivity.
  - destruct (scmp s k) eqn:E'; try reflexivity.
    apply scmp_eq in E'. subst. rewrite String.eqb_refl in E. discriminate.
Qed.

Lemma key_is_site_month_eqb (a m : string) (r : dispatch) :
  key_is pcmp site_month_key (a, m) r = String.eqb (Site r) a && opt_str_eqb (month_year_str r) m.
Proof.
  unfold key_is, site_month_key. destruct (month_year_str r) as [m'|]; simpl.
  - unfold pcmp, pair_cmp. simpl. rewrite (scmp_anti a (Site r)).
    destruct (String.eqb (Site r) a) eqn:Ea.
    + apply String.eqb_eq in Ea. rewrite Ea, (proj2 (scmp_eq a a) eq_refl). simpl.
      apply scmp_is_eqb.
    + destruct (scmp (Site r) a) eqn:E; try reflexivity.
      apply scmp_eq in E. rewrite E, String.eqb_refl in Ea. discriminate.
  - rewrite andb_false_r. reflexivity.
Qed.

Lemma sum_filter_wsum {K V : Type} (p : K -> bool) (w : K -> nat) (t : list (K * list V)) :
  list_sum (map (fun kg => length (snd kg) * w (fst kg)) (List.filter (fun kg => p (fst kg)) t)) =
  wsum (fun k => if p k then w k else 0) t.
Proof.
  unfold wsum. induction t as [|[k g] t IH]; simpl; [reflexivity|].
  destruct (p k); simpl; rewrite IH; lia.
Qed.

Lemma sum_filter_if {A : Type} (p : A -> bool) (f : A -> nat) (l : list A) :
  list_sum (map f (List.filter p l)) = list_sum (map (fun x => if p x then f x else 0) l).
Proof.
  induction l as [|x l IH]; simpl; [reflexivity|]. destruct (p x); simpl; rewrite IH; lia.
Qed.

Lemma in_site_keys (s m : string) (df : list dispatch) :
  In (s, m) (map fst (groupby pcmp site_month_key df)) <-> In m (site_months s df).
Proof.
  rewrite (groupby_keys pcmp pcmp_eq). unfold site_months, site_records, months_of.
  rewrite nodup_In, in_flat_map. split.
  - intros [r [Hr Hk]]. apply site_month_key_some in Hk. simpl in Hk. destruct Hk as [Hm Hs].
    exists r. split.
    + apply filter_In. split; [exact Hr|]. rewrite Hs, Hm, String.eqb_refl. reflexivity.
    + rewrite Hm. left. reflexivity.
  - intros [r [Hr Hm]]. apply filter_In in Hr. destruct Hr as [Hr Hb].
    apply andb_true_iff in Hb. destruct Hb as [Hs _]. apply String.eqb_eq in Hs.
    destruct (month_year_str r) as [m'|] eqn:E; [|contradiction].
    destruct Hm as [<-|[]]. exists r. split; [exact Hr|].
    apply site_month_key_some. simpl. auto.
Qed.

Lemma StronglySorted_filter_bool {A : Type} (R : A -> A -> Prop) (p : A -> bool) (l : list A) :
  StronglySorted R l -> StronglySorted R (List.filter p l).
Proof.
  intros Hs. induction Hs as [|x l Hs IH Hf]; simpl; [constructor|].
  destruct (p x); [|exact IH]. constructor; [exact IH|].
  rewrite List.Forall_forall in *. intros y Hy. apply filter_In in Hy. apply Hf, Hy.
Qed.

Lemma site_keys_sorted (s : string) (l : list ((string * string) * list dispatch)) :
  Forall (fun kg => fst (fst kg) = s) l -> StronglySorted (klt pcmp) l ->
  StronglySorted (fun a b => scmp a b = Lt) (map (fun kg => snd (fst kg)) l).
Proof.
  intros Hall Hs. induction Hs as [|[[a m] g] l Hs IH Hf]; simpl; constructor.
  - apply IH. inversion Hall; assumption.
  - inversion Hall as [|? ? Ha Hl]. simpl in Ha. subst a.
    rewrite List.Forall_forall in *. intros m' Hin. apply in_map_iff in Hin.
    destruct Hin as [[[a' m''] g'] [Heq Hin]]. simpl in Heq. subst m''.
    specialize (Hf _ Hin). specialize (Hl _ Hin). simpl in Hl. subst a'.
    unfold klt, pcmp, pair_cmp in Hf. simpl in Hf.
    rewrite (proj2 (scmp_eq s s) eq_refl) in Hf. exact Hf.
Qed.

Lemma site_counts_length (s : string) (df : list dispatch) :
  length (site_counts s df) = length (site_months s df).
Proof.
  set (Ms := map (fun kg => snd (fst kg)) (site_groups s df)).
  assert (HL : length (site_counts s df) = length Ms)
    by (unfold site_counts, Ms; rewrite !length_map; reflexivity).
  assert (Hnd : List.NoDup Ms).
  { apply (StronglySorted_NoDup (fun a b => scmp a b = Lt)).
    - intros x Hx. rewrite (proj2 (scmp_eq x x) eq_refl) in Hx. discriminate.
    - apply (site_keys_sorted s).
      + apply List.Forall_forall. intros kg Hin. apply filter_In in Hin.
        destruct Hin as [_ H]. apply String.eqb_eq, H.
      + unfold site_groups. apply StronglySorted_filter_bool.
        apply (groupby_sorted pcmp pcmp_eq pcmp_anti pcmp_trans). }
  assert (Hin : forall m, In m Ms <-> In m (site_months s df)).
  { intros m. rewrite <- in_site_keys. unfold Ms, site_groups. rewrite in_map_iff. split.
    - intros [[[a m'] g] [Heq Hin]]. simpl in Heq. subst m'. apply filter_In in Hin.
      destruct Hin as [Hin Hb]. simpl in Hb. apply String.eqb_eq in Hb. subst a.
      apply in_map_iff. exists (s, m, g). auto.
    - intros Hk. apply in_map_iff in Hk. destruct Hk as [[k g] [Hk Hin]]. simpl in Hk. subst k.
      exists (s, m, g). split; [reflexivity|]. apply filter_In. split; [exact Hin|].
      apply String.eqb_refl. }
  rewrite HL. apply Nat.le_antisymm.
  - apply NoDup_incl_length; [exact Hnd|]. intros m Hm. apply Hin, Hm.
  - apply NoDup_incl_length; [apply NoDup_nodup|]. intros m Hm. apply Hin, Hm.
Qed.

Lemma length_sum_ones {A : Type} (l : list A) : list_sum (map (fun _ => 1) l) = length l.
Proof. induction l as [|x l IH]; simpl; [reflexivity|]. rewrite IH. reflexivity. Qed.

Lemma site_counts_sum (s : string) (df : list dispatch) :
  list_sum (site_counts s df) = length (site_records s df).
Proof.
  unfold site_counts, site_groups.
  rewrite (List.map_ext (fun kg => length (snd kg))
             (fun kg => length (snd kg) * (fun _ => 1) (fst kg))) by (intros; lia).
  rewrite (sum_filter_wsum (fun k => String.eqb (fst k) s) (fun _ => 1)).
  rewrite (groupby_wsum pcmp pcmp_eq). unfold site_records.
  rewrite <- (length_sum_ones (List.filter _ df)), sum_filter_if.
  f_equal. apply List.map_ext. intros r. unfold site_month_key.
  destruct (month_year_str r); simpl; [rewrite andb_true_r | rewrite andb_false_r];
    [destruct (String.eqb (Site r) s)|]; reflexivity.
Qed.

Lemma site_counts_elem (s m : string) (df : list dispatch) :
  In m (site_months s df) -> In (site_month_count s m df) (site_counts s df).
Proof.
  intros Hm. apply in_site_keys, in_map_iff in Hm. destruct Hm as [[k g] [Hk Hin]].
  simpl in Hk. subst k. apply in_map_iff. exists (s, m, g). split.
  - simpl. rewrite (in_groupby pcmp pcmp_eq pcmp_anti pcmp_trans _ _ _ _ Hin).
    unfold site_month_count. rewrite (List.filter_ext _ _ (key_is_site_month_eqb s m)).
    reflexivity.
  - apply filter_In. split; [exact Hin|]. apply String.eqb_refl.
Qed.

Lemma avg_site_in (s : string) (df : list dispatch) :
  site_records s df <> [] ->
  In (s, mean (map Q_of_nat (site_counts s df))) (avg_tickets_by_site df).
Proof.
  intros Hne. destruct (site_records s df) as [|r rs] eqn:Ers; [contradiction|].
  assert (Hr : In r (site_records s df)) by (rewrite Ers; left; reflexivity).
  unfold site_records in Hr. apply filter_In in Hr. destruct Hr as [Hr Hb].
  apply andb_true_iff in Hb. destruct Hb as [Hs Hm]. apply String.eqb_eq in Hs.
  destruct (month_year_str r) as [m|] eqn:Em; [|discriminate].
  assert (Hk : In (s, m) (map fst (groupby pcmp site_month_key df))).
  { apply (groupby_keys pcmp pcmp_eq). exists r. split; [exact Hr|].
    apply site_month_key_some. simpl. auto. }
  apply in_map_iff in Hk. destruct Hk as [[k g] [Hk Hin]]. simpl in Hk. subst k.
  set (T := tickets_per_site_per_month df).
  set (key2 := fun x : string * string * nat => let '(s0, _, _) := x in Some s0).
  assert (Hk2 : In s (map fst (groupby scmp key2 T))).
  { apply (groupby_keys scmp scmp_eq). exists (s, m, length g). split; [|reflexivity].
    unfold T, tickets_per_site_per_month. apply in_map_iff. exists (s, m, g). auto. }
  apply in_map_iff in Hk2. destruct Hk2 as [[s' g2] [Hs' Hin2]]. simpl in Hs'. subst s'.
  unfold avg_tickets_by_site. fold T. fold key2. apply in_map_iff.
  exists (s, g2). split; [|exact Hin2]. f_equal. f_equal.
  rewrite (in_groupby scmp scmp_eq scmp_anti scmp_trans _ _ _ _ Hin2).
  unfold T, tickets_per_site_per_month. rewrite filter_map_comm, map_map.
  unfold site_counts, site_groups. rewrite map_map.
  rewrite (List.filter_ext _ (fun kg => String.eqb (fst (fst kg)) s)).
  2:{ intros [[a b] c]. unfold key2, key_is. simpl. apply scmp_is_eqb. }
  apply List.map_ext. intros [[a b] c]. reflexivity.
Qed.

Lemma flat_sum (s : string) (df : list dispatch) :
  list_sum (map (fun r => same_month_count r df) (site_records s df)) = sumsq (site_counts s df).
Proof.
  set (G1 := groupby pcmp site_month_key df).
  set (w := fun k => length (group_of pcmp k G1)).
  assert (HR : sumsq (site_counts s df) =
               list_sum (map (fun kg => length (snd kg) * w (fst kg)) (site_groups s df))).
  { unfold sumsq, site_counts. rewrite map_map. f_equal. apply map_ext_in.
    intros [k g] Hin. unfold site_groups in Hin. apply filter_In in Hin. destruct Hin as [Hin _].
    unfold w. simpl. rewrite (in_sorted_group_of pcmp pcmp_eq pcmp_anti G1 k g).
    - reflexivity.
    - apply (groupby_sorted pcmp pcmp_eq pcmp_anti pcmp_trans).
    - exact Hin. }
  rewrite HR. unfold site_groups. fold G1.
  rewrite (sum_filter_wsum (fun k => String.eqb (fst k) s) w). unfold G1 at 1.
  rewrite (groupby_wsum pcmp pcmp_eq). unfold site_records. rewrite sum_filter_if.
  f_equal. apply List.map_ext. intros r. unfold site_month_key.
  destruct (month_year_str r) as [m|] eqn:Em; simpl; [|rewrite andb_false_r; reflexivity].
  rewrite andb_true_r. destruct (String.eqb (Site r) s); [|reflexivity].
  unfold w, G1. rewrite (group_of_groupby pcmp pcmp_eq pcmp_anti pcmp_trans).
  unfold same_month_count. rewrite (List.filter_ext _ _ (key_is_site_month_eqb (Site r) m)).
  rewrite Em. f_equal.
Qed.

Lemma site_months_incl (s : string) (df : list dispatch) :
  incl (site_months s df) (all_months df).
Proof.
  intros m. unfold site_months, all_months, months_of, site_records.
  rewrite !nodup_In, !in_flat_map. intros [r [Hr Hm]]. apply filter_In in Hr.
  exists r. split; [apply Hr|exact Hm].
Qed.

(** Site "A" with one ticket in January 2024 and two in February. *)
Definition ex_uneven : list dispatch :=
  [ mkDispatch (mkDate 2024 1 10) (HNum (NFin 1)) "A" None None None;
    mkDispatch (mkDate 2024 2 10) (HNum (NFin 1)) "A" None None None;
    mkDispatch (mkDate 2024 2 20) (HNum (NFin 1)) "A" None None None ].

Lemma filter_filter_andb {A : Type} (f g : A -> bool) (l : list A) :
  List.filter f (List.filter g l) = List.filter (fun x => g x && f x) l.
Proof.
  induction l as [|x l IH]; simpl; [reflexivity|].
  destruct (g x); simpl; [destruct (f x); simpl; rewrite IH|]; try reflexivity; exact IH.
Qed.

Lemma filtered_tickets_skip (df1 df2 : list dispatch) (r : dispatch) :
  (Subtype r = None \/ Item r = None) ->
  filtered_tickets (df1 ++ r :: df2) = filtered_tickets (df1 ++ df2).
Proof.
  intros Hr. unfold filtered_tickets. rewrite !List.filter_app. simpl.
  destruct Hr as [-> | ->]; simpl; [|rewrite andb_false_r]; reflexivity.
Qed.

(* ------------------------------------------------------------------ *)
(** ** The session state across reruns *)

Definition selection_unset (u : ui) : Prop :=
  session_state u !! "selection"%string = None \/
  session_state u !! "selection"%string = Some SNone.

Lemma selectbox_keyed_other (u : ui) (k k' : string) (opts : list string) (i : nat) :
  k <> k' -> session_state (snd (selectbox_keyed u k opts i)) !! k' = session_state u !! k'.
Proof. intros Hne. simpl. apply lookup_insert_ne. exact Hne. Qed.

Lemma selectbox_keyed_value (u : ui) (k : string) (opts : list string) (i : nat) :
  fst (selectbox_keyed u k opts i) = nth i opts ""%string \/
  session_state u !! k = Some (SStr (fst (selectbox_keyed u k opts i))).
Proof.
  simpl. destruct (session_state u !! k) as [[|v|d]|] eqn:E; auto.
  destruct (mem_str v opts); auto.
Qed.

Lemma selectbox_unkeyed_state (u : ui) (l : string) (opts : list string) (i : nat) :
  session_state (snd (selectbox_unkeyed u l opts i)) = session_state u.
Proof. reflexivity. Qed.

Lemma subtype_from_chart_unset (ss : gmap string sval) :
  ss !! "selection"%string = Some SNone -> subtype_from_chart ss = inl None.
Proof. intros H. unfold subtype_from_chart. rewrite H. simpl. rewrite andb_false_r. reflexivity. Qed.

Lemma subtype_section_facts (u : ui) (df : list dispatch) :
  session_state u !! "selection"%string = Some SNone ->
  session_state (fst (subtype_section u df)) !! "selection"%string = Some SNone /\
  (forall c i v, In (OSubtypeSelect c i v) (snd (subtype_section u df)) ->
     c = None /\ i = 0 /\
     (v = "All Subtypes"%string \/ session_state u !! "subtype_select_box"%string = Some (SStr v))) /\
  (forall e, ~ In (OError e) (snd (subtype_section u df))).
Proof.
  intros Hsel. unfold subtype_section.
  destruct (selectbox_unkeyed _ _ _ _) as [pie_month u1] eqn:E1.
  assert (Hss1 : session_state u1 = session_state u).
  { pose proof (selectbox_unkeyed_state u "Select a Month for Breakdown"
      ("All Tickets"%string :: sorted_unique (months_of (filtered_tickets df))) 0) as H.
    rewrite E1 in H. exact H. }
  rewrite Hss1, (subtype_from_chart_unset _ Hsel). simpl initial_index_of.
  destruct (selectbox_keyed _ _ _ _) as [v u2] eqn:E2.
  pose proof (selectbox_keyed_value u1 "subtype_select_box"
    ("All Subtypes"%string :: sorted_unique (map fst (data_to_chart_subtype df pie_month))) 0) as Hv.
  pose proof (selectbox_keyed_other u1 "subtype_select_box" "selection"
    ("All Subtypes"%string :: sorted_unique (map fst (data_to_chart_subtype df pie_month))) 0) as Hs2.
  rewrite E2 in Hv, Hs2. simpl in Hv, Hs2. rewrite Hss1 in Hv, Hs2.
  split; [|split].
  - simpl. rewrite Hs2 by discriminate. exact Hsel.
  - intros c i v' Hin. simpl in Hin.
    destruct Hin as [Hin|[Hin|Hin]]; [discriminate| |].
    + injection Hin as <- <- <-. split; [reflexivity|]. split; [reflexivity|]. exact Hv.
    + destruct Hin as [Hin|[]]. revert Hin.
      destruct (negb (String.eqb v "All Subtypes")); [|discriminate].
      destruct (List.filter _ _); discriminate.
  - intros e Hin. simpl in Hin.
    destruct Hin as [Hin|[Hin|Hin]]; [discriminate|discriminate|].
    destruct Hin as [Hin|[]]. revert Hin.
    destruct (negb (String.eqb v "All Subtypes")); [|discriminate].
    destruct (List.filter _ _); discriminate.
Qed.

Lemma rerun_facts (u : ui) (df : list dispatch) :
  selection_unset u ->
  session_state (fst (rerun u df)) !! "selection"%string = Some SNone /\
  (forall c i v, In (OSubtypeSelect c i v) (snd (rerun u df)) ->
     c = None /\ i = 0 /\
     (v = "All Subtypes"%string \/ session_state u !! "subtype_select_box"%string = Some (SStr v))) /\
  (forall e, ~ In (OError e) (snd (rerun u df))).
Proof.
  intros Hu.
  assert (H0 : session_state (init_selection u) !! "selection"%string = Some SNone).
  { unfold init_selection. destruct Hu as [H|H]; rewrite H; cbn [session_state];
    [apply lookup_insert_eq|exact H]. }
  assert (H0b : session_state (init_selection u) !! "subtype_select_box"%string =
                session_state u !! "subtype_select_box"%string).
  { unfold init_selection. destruct (session_state u !! "selection"%string); [reflexivity|].
    cbn [session_state]. apply lookup_insert_ne. discriminate. }
  unfold rerun. destruct df as [|r df'].
  - cbn [fst snd]. split; [exact H0|]. split.
    + intros c i v [H|[]]. discriminate.
    + intros e [H|[]]. discriminate.
  - cbv zeta. set (df := normalize (r :: df')).
    destruct (selectbox_keyed _ _ _ _) as [m u1] eqn:E1.
    pose proof (selectbox_keyed_other (init_selection u) "breakdown_month_selector" "selection"
      (breakdown_month_options df) 0 ltac:(discriminate)) as Hs1.
    pose proof (selectbox_keyed_other (init_selection u) "breakdown_month_selector" "subtype_select_box"
      (breakdown_month_options df) 0 ltac:(discriminate)) as Hb1.
    rewrite E1 in Hs1, Hb1. cbn [snd] in Hs1, Hb1.
    rewrite H0 in Hs1. rewrite H0b in Hb1.
    destruct (subtype_section_facts u1 df Hs1) as [F1 [F2 F3]].
    destruct (subtype_section u1 df) as [u2 outs2] eqn:E2.
    cbn [fst snd] in F1, F2, F3 |- *. split; [exact F1|]. split.
    + intros c i v Hin. apply in_app_or in Hin. destruct Hin as [Hin|Hin].
      * destruct Hin as [H|[H|[H|[H|[H|[H|[]]]]]]]; discriminate.
      * rewrite <- Hb1. apply F2, Hin.
    + intros e Hin. apply in_app_or in Hin. destruct Hin as [Hin|Hin].
      * destruct Hin as [H|[H|[H|[H|[H|[H|[]]]]]]]; discriminate.
      * exact (F3 e Hin).
Qed.

Lemma reachable_selection_unset (u : ui) : reachable u -> selection_unset u.
Proof.
  induction 1 as [|u df Hr IH|u e Hr IH].
  - left. apply lookup_empty.
  - right. apply (rerun_facts u df IH).
  - destruct e as [k v|l v|st]; unfold apply_event; [|exact IH|exact IH].
    destruct (mem_str k widget_keys) eqn:Ek; [|exact IH].
    unfold selection_unset. simpl. rewrite lookup_insert_ne; [exact IH|].
    intros ->. discriminate.
Qed.

(** The record collection of the scenario of the spec (section 8.5). *)
Definition ex_records : list dispatch :=
  [ mkDispatch (mkDate 2024 1 5) (HNum (NFin 2)) "A" None None None;
    mkDispatch (mkDate 2024 1 20) (HStr "bad") "A" None None None;
    mkDispatch (mkDate 2024 2 1) (HNum (NFin 4)) "B" None None None ].


(* ------------------------------------------------------------------ *)
(** ** The month key orders months chronologically *)

Lemma string_length_app (s t : string) :
  String.length (s ++ t) = String.length s + String.length t.
Proof. induction s as [|a s IH]; simpl; [reflexivity|]. rewrite IH. reflexivity. Qed.

Lemma pad_digits_length (w n : nat) : String.length (pad_digits w n) = w.
Proof.
  revert n. induction w as [|w IH]; intros n; [reflexivity|].
  cbn [pad_digits]. rewrite string_length_app, IH. simpl. lia.
Qed.

Lemma string_compare_app (s1 s2 t1 t2 : string) :
  String.length s1 = String.length s2 ->
  String.compare (s1 ++ t1) (s2 ++ t2) =
  match String.compare s1 s2 with Eq => String.compare t1 t2 | c => c end.
Proof.
  revert s2. induction s1 as [|a s1 IH]; intros [|b s2] Hl; simpl in *;
    try discriminate; [reflexivity|].
  rewrite IH by lia. destruct (Ascii.compare a b); reflexivity.
Qed.

Lemma string_compare_cons (c : ascii) (s t : string) :
  String.compare (String c "" ++ s) (String c "" ++ t) = String.compare s t.
Proof. simpl. unfold Ascii.compare. rewrite N.compare_refl. reflexivity. Qed.

Lemma string_compare_single (a b : ascii) :
  String.compare (String a "") (String b "") = Ascii.compare a b.
Proof. simpl. destruct (Ascii.compare a b); reflexivity. Qed.

Lemma compare_lex (a b x y k : nat) :
  x < k -> y < k ->
  Nat.compare (a * k + x) (b * k + y) = match Nat.compare a b with Eq => Nat.compare x y | c => c end.
Proof.
  intros Hx Hy. destruct (Nat.compare_spec a b) as [<-|H|H].
  - destruct (Nat.compare_spec x y) as [<-|H'|H'].
    + apply Nat.compare_eq_iff. reflexivity.
    + apply Nat.compare_lt_iff. lia.
    + apply Nat.compare_gt_iff. lia.
  - apply Nat.compare_lt_iff. nia.
  - apply Nat.compare_gt_iff. nia.
Qed.

Lemma digit_compare (a b : nat) :
  a < 10 -> b < 10 -> Ascii.compare (digit a) (digit b) = Nat.compare a b.
Proof.
  intros Ha Hb. unfold Ascii.compare, digit, ascii_of_nat.
  rewrite !N_ascii_embedding by lia. rewrite <- Nat2N.inj_compare.
  destruct (Nat.compare_spec a b) as [<-|H|H].
  - apply Nat.compare_eq_iff. reflexivity.
  - apply Nat.compare_lt_iff. lia.
  - apply Nat.compare_gt_iff. lia.
Qed.

Lemma pad_digits_compare (w n m : nat) :
  n < 10 ^ w -> m < 10 ^ w ->
  String.compare (pad_digits w n) (pad_digits w m) = Nat.compare n m.
Proof.
  revert n m. induction w as [|w IH]; intros n m Hn Hm.
  - cbn in Hn, Hm. assert (n = 0) by lia. assert (m = 0) by lia. subst. reflexivity.
  - rewrite Nat.pow_succ_r' in Hn, Hm. cbn [pad_digits].
    rewrite string_compare_app by (rewrite !pad_digits_length; reflexivity).
    rewrite IH by (apply Nat.Div0.div_lt_upper_bound; lia).
    rewrite string_compare_single, digit_compare by (apply Nat.mod_upper_bound; lia).
    rewrite (Nat.div_mod n 10) at 3 by lia. rewrite (Nat.div_mod m 10) at 3 by lia.
    rewrite !(Nat.mul_comm 10).
    symmetry. apply compare_lex; apply Nat.mod_upper_bound; lia.
Qed.

(* ------------------------------------------------------------------ *)
(** ** Helpers about options lists and widgets *)

Lemma mem_str_In (x : string) (l : list string) : mem_str x l = true <-> In x l.
Proof.
  induction l as [|y l IH]; simpl; [split; [discriminate|tauto]|].
  rewrite orb_true_iff, String.eqb_eq, IH. intuition congruence.
Qed.

Lemma index_of_lt (x : string) (l : list string) : In x l -> index_of x l < length l.
Proof.
  induction l as [|y l IH]; simpl; [tauto|]. intros Hin.
  destruct (String.eqb x y) eqn:E; [lia|].
  destruct Hin as [->|Hin]; [rewrite String.eqb_refl in E; discriminate|].
  specialize (IH Hin). lia.
Qed.

Lemma StronglySorted_map_fst {A B : Type} (R : A -> A -> Prop) (l : list (A * B)) :
  StronglySorted (fun x y => R (fst x) (fst y)) l -> StronglySorted R (map fst l).
Proof.
  induction 1 as [|x l Hs IH Hf]; simpl; constructor; [exact IH|].
  rewrite List.Forall_forall in *. intros a Ha. apply in_map_iff in Ha.
  destruct Ha as [y [<- Hy]]. exact (Hf y Hy).
Qed.

Lemma sorted_unique_in (xs : list string) (x : string) :
  In x (sorted_unique xs) <-> In x xs.
Proof.
  unfold sorted_unique. rewrite (groupby_keys scmp scmp_eq). split.
  - intros [r [Hr Hk]]. injection Hk as ->. exact Hr.
  - intros H. exists x. auto.
Qed.

Lemma sorted_unique_sorted (xs : list string) :
  StronglySorted (fun a b => scmp a b = Lt) (sorted_unique xs).
Proof.
  unfold sorted_unique. apply StronglySorted_map_fst.
  exact (groupby_sorted scmp scmp_eq scmp_anti scmp_trans Some xs).
Qed.

Lemma selectbox_keyed_in (u : ui) (k : string) (opts : list string) (i : nat) :
  i < length opts -> In (fst (selectbox_keyed u k opts i)) opts.
Proof.
  intros Hi. unfold selectbox_keyed. cbn [fst].
  destruct (session_state u !! k) as [[|v|d]|]; try (apply nth_In; exact Hi).
  destruct (mem_str v opts) eqn:E; [apply mem_str_In; exact E|apply nth_In; exact Hi].
Qed.

Lemma selectbox_unkeyed_in (u : ui) (l : string) (opts : list string) (i : nat) :
  i < length opts -> In (fst (selectbox_unkeyed u l opts i)) opts.
Proof.
  intros Hi. unfold selectbox_unkeyed. cbn [fst].
  destruct (unkeyed_widgets u !! l) as [v|]; [|apply nth_In; exact Hi].
  destruct (mem_str v opts) eqn:E; [apply mem_str_In; exact E|apply nth_In; exact Hi].
Qed.

Lemma initial_index_lt (fc : option string) (opts : list string) :
  opts <> [] -> initial_index_of fc opts < length opts.
Proof.
  intros Hne. assert (H0 : 0 < length opts) by (destruct opts; [contradiction|simpl; lia]).
  destruct fc as [v|]; simpl; [|exact H0].
  destruct (negb (String.eqb v "") && mem_str v opts) eqn:E; [|exact H0].
  apply andb_true_iff in E. apply index_of_lt, mem_str_In, (proj2 E).
Qed.

Lemma key_is_opt_str (key : dispatch -> option string) (m : string) (r : dispatch) :
  key_is scmp key m r = opt_str_eqb (key r) m.
Proof. unfold key_is. destruct (key r); [apply scmp_is_eqb|reflexivity]. Qed.

(** The outputs of the subtype section. *)
Definition subtype_output (o : output) : bool :=
  match o with
  | OPie _ _ | OError _ | OSubtypeSelect _ _ _ | OInfo _ | OSiteBreakdown _ _ => true
  | _ => false
  end.

Lemma subtype_section_shape (u : ui) (df : list dispatch) (o : output) :
  In o (snd (subtype_section u df)) -> subtype_output o = true.
Proof.
  unfold subtype_section.
  destruct (selectbox_unkeyed _ _ _ _) as [pm u1].
  destruct (subtype_from_chart _) as [fc|exc].
  - destruct (selectbox_keyed _ _ _ _) as [v u2]. cbn [snd].
    intros [<-|[<-|[<-|[]]]]; [reflexivity|reflexivity|].
    destruct (negb _); [destruct (List.filter _ _); reflexivity|reflexivity].
  - cbn [snd]. intros [<-|[<-|[]]]; reflexivity.
Qed.

(** A rerun on data: the breakdown month is the value of its keyed
    selectbox, then come the other outputs, then the subtype section. *)
Lemma rerun_split (u : ui) (df : list dispatch) :
  df <> [] ->
  snd (rerun u df) =
    [OMetricTickets (total_tickets (monthly_breakdown (normalize df)
       (fst (selectbox_keyed (init_selection u) "breakdown_month_selector"
               (breakdown_month_options (normalize df)) 0))));
     OMetricAvg (avg_time_to_close (monthly_breakdown (normalize df)
       (fst (selectbox_keyed (init_selection u) "breakdown_month_selector"
               (breakdown_month_options (normalize df)) 0))));
     OBarTicketsPerSite
       (fst (selectbox_keyed (init_selection u) "breakdown_month_selector"
               (breakdown_month_options (normalize df)) 0))
       (tickets_per_site (monthly_breakdown (normalize df)
          (fst (selectbox_keyed (init_selection u) "breakdown_month_selector"
                  (breakdown_month_options (normalize df)) 0))));
     OTrend (monthly_data (normalize df));
     OSiteAvg (avg_tickets_by_site (normalize df));
     OMonthCount (agg_count scmp month_year_str (normalize df))] ++
    snd (subtype_section
           (snd (selectbox_keyed (init_selection u) "breakdown_month_selector"
                   (breakdown_month_options (normalize df)) 0))
           (normalize df)).
Proof.
  intros Hne. destruct df as [|r df']; [contradiction|]. unfold rerun. cbv zeta.
  destruct (selectbox_keyed _ _ _ _) as [m u1]. cbn [fst snd].
  destruct (subtype_section _ _) as [u2 o2]. reflexivity.
Qed.

(* ------------------------------------------------------------------ *)
(** ** Month options and the breakdown selector *)

Lemma ndigits_fuel_spec (k : nat) :
  forall f n, n < 10 ^ S k -> (k = 0 \/ 10 ^ k <= n) -> k <= f -> ndigits_fuel f n = S k.
Proof.
  induction k as [|k IH]; intros f n Hlt Hge Hf.
  - destruct f as [|f]; cbn [ndigits_fuel]; [reflexivity|].
    cbn in Hlt. rewrite (proj2 (Nat.ltb_lt n 10)) by lia. reflexivity.
  - destruct f as [|f]; [lia|]. cbn [ndigits_fuel]. destruct Hge as [Hk|Hge]; [discriminate|].
    rewrite Nat.pow_succ_r' in Hlt, Hge. pose proof (Nat.pow_nonzero 10 k ltac:(lia)).
    rewrite (proj2 (Nat.ltb_ge n 10)) by lia. f_equal. apply IH; [| right | lia].
    + apply Nat.Div0.div_lt_upper_bound. exact Hlt.
    + apply Nat.div_le_lower_bound; [lia|exact Hge].
Qed.

Lemma dec_str_4digits (y : nat) : 10 ^ 3 <= y < 10 ^ 4 -> dec_str y = pad_digits 4 y.
Proof.
  intros [Hl Hu]. unfold dec_str, ndigits.
  rewrite (ndigits_fuel_spec 3 y y); [reflexivity|exact Hu|right; exact Hl|cbn in Hl; lia].
Qed.

Lemma period_str_compare (d1 d2 : date) :
  10 ^ 3 <= year d1 < 10 ^ 4 -> 10 ^ 3 <= year d2 < 10 ^ 4 ->
  1 <= month d1 <= 12 -> 1 <= month d2 <= 12 ->
  String.compare (period_str d1) (period_str d2) = Nat.compare (month_index d1) (month_index d2).
Proof.
  intros Hy1' Hy2' Hm1 Hm2. unfold period_str, month_index.
  rewrite !dec_str_4digits by assumption.
  destruct Hy1' as [_ Hy1], Hy2' as [_ Hy2].
  rewrite string_compare_app by (rewrite !pad_digits_length; reflexivity).
  rewrite string_compare_cons.
  rewrite !pad_digits_compare by (first [assumption | cbn; lia]).
  rewrite compare_lex by lia.
  destruct (Nat.compare (year d1) (year d2)); try reflexivity. symmetry.
  destruct (Nat.compare_spec (month d1) (month d2)) as [H|H|H].
  - apply Nat.compare_eq_iff. lia.
  - apply Nat.compare_lt_iff. lia.
  - apply Nat.compare_gt_iff. lia.
Qed.

Lemma StronglySorted_weaken {A : Type} (R S : A -> A -> Prop) (l : list A) :
  (forall x y, R x y -> S x y) -> StronglySorted R l -> StronglySorted S l.
Proof.
  intros HRS. induction 1 as [|x l Hs IH Hf]; constructor; [exact IH|].
  rewrite List.Forall_forall in *. intros y Hy. apply HRS, Hf, Hy.
Qed.

Lemma StronglySorted_app {A : Type} (R : A -> A -> Prop) (l1 l2 : list A) :
  StronglySorted R l1 -> StronglySorted R l2 ->
  (forall x y, In x l1 -> In y l2 -> R x y) -> StronglySorted R (l1 ++ l2).
Proof.
  intros H1 H2 H12. induction H1 as [|x l1 Hs IH Hf]; simpl; [exact H2|].
  constructor.
  - apply IH. intros a b Ha Hb. apply H12; [right; exact Ha|exact Hb].
  - rewrite List.Forall_forall in *. intros y Hy. apply in_app_or in Hy.
    destruct Hy as [Hy|Hy]; [apply Hf, Hy|apply H12; [left; reflexivity|exact Hy]].
Qed.

Lemma StronglySorted_rev {A : Type} (R : A -> A -> Prop) (l : list A) :
  StronglySorted R l -> StronglySorted (fun x y => R y x) (rev l).
Proof.
  induction 1 as [|x l Hs IH Hf]; simpl; [constructor|].
  apply StronglySorted_app; [exact IH|repeat constructor|].
  intros a b Ha [<-|[]]. rewrite <- in_rev in Ha. rewrite List.Forall_forall in Hf.
  exact (Hf a Ha).
Qed.

Lemma breakdown_month_options_in (df : list dispatch) (m : string) :
  In m (breakdown_month_options (normalize df)) <->
  exists r, In r df /\ period_str (CheckInDate r) = m.
Proof.
  unfold breakdown_month_options. rewrite <- in_rev, sorted_unique_in, in_flat_map. split.
  - intros [r' [Hr' Hm]]. unfold normalize in Hr'. apply in_map_iff in Hr'.
    destruct Hr' as [r [<- Hr]]. cbn [month_year_str normalize_row In] in Hm.
    destruct Hm as [<-|[]]. exists r. auto.
  - intros [r [Hr <-]]. exists (normalize_row r).
    split; [apply in_map; exact Hr|left; reflexivity].
Qed.

Lemma breakdown_month_options_desc (df : list dispatch) :
  StronglySorted (fun a b => scmp a b = Gt) (breakdown_month_options (normalize df)).
Proof.
  unfold breakdown_month_options.
  apply (StronglySorted_weaken (fun x y => scmp y x = Lt)).
  - intros x y H. rewrite scmp_anti, H. reflexivity.
  - apply StronglySorted_rev, sorted_unique_sorted.
Qed.


Lemma normalized_hours_value (df : list dispatch) (x : dispatch) :
  In x (normalize df) -> exists q, hours_value x = Some q.
Proof.
  unfold normalize. rewrite in_map_iff. intros [r [<- _]].
  exists (fillna0 (to_numeric_coerce (Hours r))). reflexivity.
Qed.

(** [value_counts] of the month keys (lines 163-165). *)
Definition tickets_by_month (df : list dispatch) : list (string * nat) :=
  agg_count scmp month_year_str df.

Lemma breakdown_month_options_nonempty (df : list dispatch) :
  df <> [] -> 0 < length (breakdown_month_options (normalize df)).
Proof.
  intros Hne. destruct df as [|r0 df']; [contradiction|].
  destruct (breakdown_month_options (normalize (r0 :: df'))) as [|h l] eqn:E; [|simpl; lia].
  exfalso. assert (Hi : In (period_str (CheckInDate r0)) (breakdown_month_options (normalize (r0 :: df'))))
    by (apply breakdown_month_options_in; exists r0; split; [left|]; reflexivity).
  rewrite E in Hi. exact Hi.
Qed.

(* ------------------------------------------------------------------ *)
(** ** The subtype section and the rest of a rerun *)

Lemma rerun_subtype_part (u : ui) (df : list dispatch) :
  df <> [] ->
  exists u1, forall o, subtype_output o = true ->
    (In o (snd (rerun u df)) <-> In o (snd (subtype_section u1 (normalize df)))).
Proof.
  intros Hne. rewrite rerun_split by exact Hne. eexists. intros o Ho.
  rewrite in_app_iff. split; [|intros H; right; exact H].
  intros [H|H]; [|exact H].
  destruct H as [H|[H|[H|[H|[H|[H|[]]]]]]]; subst o; discriminate Ho.
Qed.

Lemma subtype_options_in (df : list dispatch) (pm v : string) :
  In v ("All Subtypes"%string :: sorted_unique (map fst (data_to_chart_subtype df pm))) ->
  v <> "All Subtypes"%string ->
  List.filter (fun r => opt_str_eqb (Subtype r) v) (monthly_filtered_data df pm) <> [].
Proof.
  intros Hv Hne. destruct Hv as [Hv|Hv]; [congruence|].
  rewrite sorted_unique_in in Hv. apply in_map_iff in Hv. destruct Hv as [[k c] [Hk Hin]]. cbn [fst] in Hk. subst k.
  unfold data_to_chart_subtype in Hin.
  apply (agg_count_spec scmp scmp_eq scmp_anti scmp_trans) in Hin. destruct Hin as [Hc Hpos].
  rewrite (List.filter_ext _ _ (key_is_opt_str Subtype v)) in Hc.
  intros E. rewrite E in Hc. cbn in Hc. lia.
Qed.

Lemma subtype_section_no_empty_info (u : ui) (df : list dispatch) :
  ~ In (OInfo "No site data found for this subtype.") (snd (subtype_section u df)).
Proof.
  unfold subtype_section. cbv zeta.
  destruct (selectbox_unkeyed _ _ _ _) as [pm u1].
  destruct (subtype_from_chart _) as [fc|exc].
  2:{ cbn [snd]. intros [H|[H|[]]]; discriminate H. }
  destruct (selectbox_keyed _ _ _ _) as [v u2] eqn:E.
  assert (Hlt : initial_index_of fc
                 ("All Subtypes"%string :: sorted_unique (map fst (data_to_chart_subtype df pm)))
               < length ("All Subtypes"%string :: sorted_unique (map fst (data_to_chart_subtype df pm))))
    by (apply initial_index_lt; discriminate).
  pose proof (selectbox_keyed_in u1 "subtype_select_box" _ _ Hlt) as Hv.
  rewrite E in Hv. cbn [fst] in Hv.
  cbn [snd]. intros [H|[H|[H|[]]]]; [discriminate H|discriminate H|].
  destruct (String.eqb v "All Subtypes") eqn:Ev; cbn [negb] in H.
  - apply (f_equal (fun o => match o with OInfo s => s | _ => ""%string end)) in H.
    cbv beta iota in H. discriminate H.
  - apply String.eqb_neq in Ev. pose proof (subtype_options_in df pm v Hv Ev) as Hf.
    destruct (List.filter _ _); [contradiction|discriminate H].
Qed.

Lemma agg_count_site_total (l : list dispatch) :
  list_sum (map snd (agg_count scmp (fun r => Some (Site r)) l)) = length l.
Proof.
  rewrite (agg_count_total scmp scmp_eq).
  rewrite (List.filter_ext _ (fun _ => true)) by (intros; reflexivity).
  rewrite filter_true. reflexivity.
Qed.

Lemma subtype_section_site_breakdown (u : ui) (df : list dispatch) (s : string)
  (t : list (string * nat)) :
  In (OSiteBreakdown s t) (snd (subtype_section u df)) ->
  s <> "All Subtypes"%string /\
  StronglySorted (fun x y => scmp (fst x) (fst y) = Lt) t /\
  exists m tab c, In (OPie m tab) (snd (subtype_section u df)) /\ In (s, c) tab /\
                  list_sum (map snd t) = c.
Proof.
  unfold subtype_section. cbv zeta.
  destruct (selectbox_unkeyed _ _ _ _) as [pm u1].
  destruct (subtype_from_chart _) as [fc|exc].
  2:{ cbn [snd]. intros [H|[H|[]]]; discriminate H. }
  destruct (selectbox_keyed _ _ _ _) as [v u2].
  cbn [snd]. intros [H|[H|[H|[]]]]; [discriminate H|discriminate H|].
  destruct (String.eqb v "All Subtypes") eqn:Ev; cbn [negb] in H; [discriminate H|].
  destruct (List.filter (fun r => opt_str_eqb (Subtype r) v) (monthly_filtered_data df pm))
    as [|x l] eqn:Ef; [discriminate H|].
  pose proof (f_equal (fun o => match o with OSiteBreakdown a _ => a | _ => s end) H) as H1.
  pose proof (f_equal (fun o => match o with OSiteBreakdown _ b => b | _ => t end) H) as H2.
  cbv beta iota in H1, H2. subst s t.
  split; [apply String.eqb_neq, Ev|]. split.
  - apply (agg_count_sorted scmp scmp_eq scmp_anti scmp_trans).
  - exists pm, (data_to_chart_subtype df pm), (length (x :: l)).
    split; [left; reflexivity|]. split.
    + unfold data_to_chart_subtype. apply (agg_count_spec scmp scmp_eq scmp_anti scmp_trans).
      rewrite (List.filter_ext _ _ (key_is_opt_str Subtype v)), Ef. split; [reflexivity|].
      simpl. lia.
    + apply agg_count_site_total.
Qed.

Lemma filtered_tickets_normalize (df : list dispatch) :
  filtered_tickets (normalize df) = normalize (filtered_tickets df).
Proof. unfold filtered_tickets, normalize. rewrite filter_map_comm. reflexivity. Qed.

Lemma subtype_section_pie (u : ui) (df : list dispatch) (m : string) (tab : list (string * nat)) :
  filtered_tickets df <> [] ->
  In (OPie m tab) (snd (subtype_section u df)) ->
  tab <> [] /\
  (m = "All Tickets"%string \/ exists x, In x (filtered_tickets df) /\ month_year_str x = Some m).
Proof.
  intros Hne. unfold subtype_section. cbv zeta.
  destruct (selectbox_unkeyed _ _ _ _) as [pm u1] eqn:E1.
  pose proof (selectbox_unkeyed_in u "Select a Month for Breakdown"
    ("All Tickets"%string :: sorted_unique (months_of (filtered_tickets df))) 0
    ltac:(simpl; lia)) as Hpm.
  rewrite E1 in Hpm. cbn [fst] in Hpm.
  intros Hin. assert (Hm : pm = m /\ data_to_chart_subtype df pm = tab).
  { revert Hin. destruct (subtype_from_chart (session_state u1)) as [fc|exc].
    - destruct (selectbox_keyed _ _ _ _) as [v u2]. cbn [snd].
      intros [H|[H|[H|[]]]].
      + pose proof (f_equal (fun o => match o with OPie a _ => a | _ => m end) H) as H1.
        pose proof (f_equal (fun o => match o with OPie _ b => b | _ => tab end) H) as H2.
        cbv beta iota in H1, H2. auto.
      + discriminate H.
      + destruct (negb _); [destruct (List.filter _ _); discriminate H|discriminate H].
    - cbn [snd]. intros [H|[H|[]]]; [|discriminate H].
      pose proof (f_equal (fun o => match o with OPie a _ => a | _ => m end) H) as H1.
      pose proof (f_equal (fun o => match o with OPie _ b => b | _ => tab end) H) as H2.
      cbv beta iota in H1, H2. auto. }
  clear - Hne Hpm Hm. destruct Hm as [<- <-].
  assert (Hx : exists x, In x (monthly_filtered_data df pm)).
  { unfold monthly_filtered_data. destruct (String.eqb pm "All Tickets") eqn:Ea; cbn [negb].
    - destruct (filtered_tickets df) as [|x l]; [contradiction|]. exists x. left. reflexivity.
    - destruct Hpm as [Hpm|Hpm]; [subst pm; rewrite String.eqb_refl in Ea; discriminate Ea|].
      rewrite sorted_unique_in in Hpm. unfold months_of in Hpm. apply in_flat_map in Hpm.
      destruct Hpm as [x [Hx Hmx]]. exists x. apply filter_In. split; [exact Hx|].
      destruct (month_year_str x) as [mx|]; [|contradiction].
      destruct Hmx as [<-|[]]. apply String.eqb_refl. }
  split.
  - destruct Hx as [x Hx]. intros Ht.
    pose proof (agg_count_total scmp scmp_eq Subtype (monthly_filtered_data df pm)) as Hs.
    unfold data_to_chart_subtype in Ht. rewrite Ht in Hs. cbn in Hs.
    assert (Hxs : In x (List.filter (fun r => is_some (Subtype r)) (monthly_filtered_data df pm))).
    { apply filter_In. split; [exact Hx|].
      assert (Hxf : In x (filtered_tickets df)).
      { unfold monthly_filtered_data in Hx.
        destruct (negb _); [apply filter_In in Hx; apply Hx|exact Hx]. }
      unfold filtered_tickets in Hxf. apply filter_In in Hxf.
      destruct Hxf as [_ Hb]. apply andb_true_iff in Hb. apply Hb. }
    destruct (List.filter _ _); [contradiction|discriminate Hs].
  - destruct Hpm as [Hpm|Hpm]; [left; symmetry; exact Hpm|right].
    rewrite sorted_unique_in in Hpm. unfold months_of in Hpm. apply in_flat_map in Hpm.
    destruct Hpm as [x [Hx' Hmx]]. exists x. split; [exact Hx'|].
    destruct (month_year_str x) as [mx|]; [|contradiction].
    destruct Hmx as [<-|[]]. reflexivity.
Qed.

(* ------------------------------------------------------------------ *)
(** ** Site averages, trend rows, and month totals *)

Lemma StronglySorted_map_keep_fst {A B C : Type} (R : A -> A -> Prop) (f : A * B -> A * C)
  (l : list (A * B)) :
  (forall x, fst (f x) = fst x) ->
  StronglySorted (fun x y => R (fst x) (fst y)) l ->
  StronglySorted (fun x y => R (fst x) (fst y)) (map f l).
Proof.
  intros Hf. induction 1 as [|x l Hs IH Hall]; simpl; constructor; [exact IH|].
  rewrite List.Forall_forall in *. intros y Hy. apply in_map_iff in Hy.
  destruct Hy as [z [<- Hz]]. rewrite !Hf. exact (Hall z Hz).
Qed.

Lemma sorted_keys_unique {B : Type} (l : list (string * B)) (k : string) (a b : B) :
  StronglySorted (fun x y => scmp (fst x) (fst y) = Lt) l ->
  In (k, a) l -> In (k, b) l -> a = b.
Proof.
  intros Hs. induction Hs as [|x l Hs IH Hall]; [intros []|].
  rewrite List.Forall_forall in Hall.
  assert (Hirr : forall c, In (k, c) l -> fst x <> k).
  { intros c Hc Hx. specialize (Hall _ Hc). cbn [fst] in Hall. rewrite Hx in Hall.
    rewrite (proj2 (scmp_eq k k) eq_refl) in Hall. discriminate Hall. }
  intros [Ha|Ha] [Hb|Hb].
  - subst x. injection Hb as ->. reflexivity.
  - subst x. exfalso. exact (Hirr b Hb eq_refl).
  - subst x. exfalso. exact (Hirr a Ha eq_refl).
  - exact (IH Ha Hb).
Qed.

Lemma avg_tickets_by_site_sorted (df : list dispatch) :
  StronglySorted (fun x y => scmp (fst x) (fst y) = Lt) (avg_tickets_by_site df).
Proof.
  unfold avg_tickets_by_site.
  apply (StronglySorted_map_keep_fst (fun a b => scmp a b = Lt)); [intros [s g]; reflexivity|].
  exact (groupby_sorted scmp scmp_eq scmp_anti scmp_trans _ _).
Qed.

Lemma avg_site_has_records (df : list dispatch) (s : string) (o : option Q) :
  In (s, o) (avg_tickets_by_site df) -> site_records s df <> [].
Proof.
  intros Hin. unfold avg_tickets_by_site in Hin. apply in_map_iff in Hin.
  destruct Hin as [[s' g] [Heq Hin]]. injection Heq as -> _.
  assert (Hk : In s (map fst (groupby scmp (fun x : string * string * nat => let '(s0, _, _) := x in Some s0)
                                 (tickets_per_site_per_month df))))
    by (apply in_map_iff; exists (s, g); auto).
  apply (groupby_keys scmp scmp_eq) in Hk. destruct Hk as [[[a m] c] [HT Hk]].
  injection Hk as ->. unfold tickets_per_site_per_month in HT. apply in_map_iff in HT.
  destruct HT as [[[a' m'] g'] [Heq HT]]. injection Heq as -> -> _.
  assert (Hk' : In (s, m) (map fst (groupby pcmp site_month_key df)))
    by (apply in_map_iff; exists (s, m, g'); auto).
  apply (groupby_keys pcmp pcmp_eq) in Hk'. destruct Hk' as [r [Hr Hkr]].
  apply site_month_key_some in Hkr. destruct Hkr as [Hm Hs]. cbn [fst snd] in Hm, Hs.
  intros E. assert (Hr' : In r (site_records s df)).
  { apply filter_In. split; [exact Hr|]. rewrite Hs, Hm, String.eqb_refl. reflexivity. }
  rewrite E in Hr'. exact Hr'.
Qed.

Lemma groupby_pcmp_nonempty (df : list dispatch) (k : string * string) (g : list dispatch) :
  In (k, g) (groupby pcmp site_month_key df) -> g <> [].
Proof.
  intros Hin. pose proof (in_groupby pcmp pcmp_eq pcmp_anti pcmp_trans _ _ _ _ Hin) as Hg.
  assert (Hk : In k (map fst (groupby pcmp site_month_key df)))
    by (apply in_map_iff; exists (k, g); auto).
  apply (groupby_keys pcmp pcmp_eq) in Hk. destruct Hk as [r [Hr Hkr]].
  intros E. subst g. assert (Hr' : In r (List.filter (key_is pcmp site_month_key k) df))
    by (apply filter_In; split; [exact Hr|apply key_is_site_month, Hkr]).
  rewrite E in Hr'. exact Hr'.
Qed.

Lemma site_counts_pos (s : string) (df : list dispatch) (c : nat) :
  In c (site_counts s df) -> 1 <= c.
Proof.
  unfold site_counts, site_groups. intros Hc. apply in_map_iff in Hc.
  destruct Hc as [[k g] [<- Hin]]. apply filter_In in Hin. destruct Hin as [Hin _].
  pose proof (groupby_pcmp_nonempty df k g Hin) as Hg. cbn [snd].
  destruct g; [contradiction|simpl; lia].
Qed.

Lemma length_le_sum (l : list nat) : (forall c, In c l -> 1 <= c) -> length l <= list_sum l.
Proof.
  induction l as [|x l IH]; simpl; [lia|]. intros H.
  pose proof (H x (or_introl eq_refl)). pose proof (IH (fun c Hc => H c (or_intror Hc))). lia.
Qed.

Lemma Q_of_nat_le (a b : nat) : a <= b -> (Q_of_nat a <= Q_of_nat b)%Q.
Proof. intros H. unfold Q_of_nat, Qle. simpl. lia. Qed.

Lemma Q_of_nat_mul (a b : nat) : (Q_of_nat (a * b) == Q_of_nat a * Q_of_nat b)%Q.
Proof. unfold Q_of_nat. rewrite Nat2Z.inj_mul, inject_Z_mult. reflexivity. Qed.





Lemma list_sum_map_add {A : Type} (f g : A -> nat) (l : list A) :
  list_sum (map (fun x => f x + g x) l) = list_sum (map f l) + list_sum (map g l).
Proof. induction l as [|x l IH]; simpl; [reflexivity|]. rewrite IH. lia. Qed.

Lemma count_zero (y : string) (ks : list string) :
  ~ In y ks -> list_sum (map (fun k => if String.eqb y k then 1 else 0) ks) = 0.
Proof.
  induction ks as [|k ks IH]; simpl; [reflexivity|]. intros Hn.
  destruct (String.eqb y k) eqn:E; [apply String.eqb_eq in E; subst; tauto|].
  rewrite IH by tauto. reflexivity.
Qed.

Lemma count_one (y : string) (ks : list string) :
  List.NoDup ks -> In y ks -> list_sum (map (fun k => if String.eqb y k then 1 else 0) ks) = 1.
Proof.
  induction 1 as [|k ks Hk Hnd IH]; simpl; [tauto|]. intros [<-|Hy].
  - rewrite String.eqb_refl, count_zero by exact Hk. reflexivity.
  - destruct (String.eqb y k) eqn:E; [apply String.eqb_eq in E; subst; contradiction|].
    rewrite IH by exact Hy. reflexivity.
Qed.

Lemma count_partition {A : Type} (key : A -> string) (ks : list string) (l : list A) :
  List.NoDup ks -> (forall x, In x l -> In (key x) ks) ->
  list_sum (map (fun k => length (List.filter (fun x => String.eqb (key x) k) l)) ks) = length l.
Proof.
  intros Hnd. induction l as [|x l IH]; intros Hl.
  - cbn. clear Hl Hnd. induction ks as [|k ks IHk]; [reflexivity|]. cbn [map list_sum fold_right]. exact IHk.
  - rewrite (List.map_ext _ (fun k => (if String.eqb (key x) k then 1 else 0) +
                            length (List.filter (fun x => String.eqb (key x) k) l))).
    2:{ intros k. simpl. destruct (String.eqb (key x) k); reflexivity. }
    rewrite list_sum_map_add, count_one, IH; [reflexivity| |exact Hnd|apply Hl; left; reflexivity].
    intros y Hy. apply Hl. right. exact Hy.
Qed.

(** The keyed selectbox after the user picked [v] in it. *)
Lemma picked_value_shown (u : ui) (k v : string) (opts : list string) (i : nat) :
  mem_str k widget_keys = true -> k <> "selection"%string -> In v opts ->
  fst (selectbox_keyed (init_selection (apply_event (EvSelectKeyed k v) u)) k opts i) = v.
Proof.
  intros Hw Hk Hv.
  assert (Hl : session_state (init_selection (apply_event (EvSelectKeyed k v) u)) !! k = Some (SStr v)).
  { unfold apply_event. rewrite Hw. unfold init_selection. cbn [session_state].
    destruct (<[k:=SStr v]> (session_state u) !! "selection"%string); cbn [session_state].
    - apply lookup_insert_eq.
    - rewrite lookup_insert_ne by congruence. apply lookup_insert_eq. }
  unfold selectbox_keyed. cbn [fst]. rewrite Hl, (proj2 (mem_str_In v opts) Hv). reflexivity.
Qed.

(** Example data with subtypes and items; the last record has no subtype. *)
Definition ex_subtypes : list dispatch :=
  [ mkDispatch (mkDate 2024 1 5) (HNum (NFin 2)) "A" (Some "Hardware") (Some "Laptop") None;
    mkDispatch (mkDate 2024 1 9) (HNum (NFin 3)) "B" (Some "Hardware") (Some "Monitor") None;
    mkDispatch (mkDate 2024 2 1) (HNum (NFin 1)) "A" (Some "Network") (Some "Router") None;
    mkDispatch (mkDate 2024 2 3) (HNum (NFin 1)) "B" None (Some "Cable") None ].

(* ================================================================== *)
(** * Theorems *)

(** C6: on the records of the scenario, the breakdown of month
    "2024-01" has 2 tickets, an average of 1 hour (the string "bad" is
    coerced to 0 and averaged with 2) and the per-site table [A: 2]. *)
Theorem monthly_breakdown_scenario :
  let b := monthly_breakdown (normalize ex_records) "2024-01" in
  total_tickets b = 2%nat /\
  (exists q, avg_time_to_close b = Some (NFin q) /\ (q == 1)%Q) /\
  tickets_per_site b = [("A"%string, 2%nat)].
Proof.
  vm_compute. split; [reflexivity|]. split; [|reflexivity].
  eexists. split; [reflexivity|]. reflexivity.
Qed.

(** C9: on an empty fetch the script shows the warning and nothing else;
    every aggregate of the pipeline, applied to the empty collection,
    is empty, zero, or NaN for the mean of no value. *)
Theorem empty_input_warning_only (u : ui) (m pie_month : string) :
  snd (rerun u []) = [OWarning no_data_warning] /\
  monthly_breakdown [] m = mkBreakdown 0 None [] /\
  breakdown_month_options [] = [] /\
  monthly_data [] = [] /\
  tickets_per_site_per_month [] = [] /\
  avg_tickets_by_site [] = [] /\
  agg_count scmp month_year_str [] = [] /\
  data_to_chart_subtype [] pie_month = [].
Proof.
  repeat split; try reflexivity.
  unfold data_to_chart_subtype, monthly_filtered_data.
  destruct (negb (String.eqb pie_month "All Tickets")); reflexivity.
Qed.

(** C8: the pre-processing pass is idempotent. *)
Theorem normalize_idempotent (x : list dispatch) :
  normalize (normalize x) = normalize x.
Proof.
  unfold normalize. rewrite map_map. apply map_ext. intros r.
  destruct r as [d h s st it my]. reflexivity.
Qed.


(** How [pd.to_numeric(errors='coerce')] reads some strings (line 38):
    whitespace around a number is skipped, the infinity literals are
    read case-insensitively, and a number beyond the double range, a
    dangling exponent or a hexadecimal literal is NaN. *)
Example parse_number_examples :
  parse_number " 7 " = Some (NFin 7) /\
  parse_number "inf" = Some NPosInf /\
  parse_number "-Infinity" = Some NNegInf /\
  parse_number "+INF " = None /\
  parse_number "1e309" = None /\
  parse_number "1e" = None /\
  parse_number "0x10" = None /\
  parse_number "-2.50" = Some (NFin (-250 # 100)).
Proof. vm_compute. repeat split. Qed.

(** The month key prints the year without padding, as pandas does. *)
Example period_str_examples :
  period_str (mkDate 999 1 1) = "999-01"%string /\
  period_str (mkDate 2024 3 1) = "2024-03"%string.
Proof. vm_compute. split; reflexivity. Qed.


(** C2: the per-site counts of the breakdown of a month add up to its
    ticket count. *)
Theorem tickets_per_site_sum (df : list dispatch) (m : string) :
  list_sum (map snd (tickets_per_site (monthly_breakdown df m))) =
  total_tickets (monthly_breakdown df m).
Proof.
  simpl. rewrite (agg_count_total scmp scmp_eq).
  rewrite filter_true. reflexivity.
Qed.

(** C5 (counterexample): the per-site table is not in first-seen order:
    with site "B" seen before site "A", the table lists "A" first. *)
Lemma tickets_per_site_not_first_seen :
  ~ (forall (df : list dispatch) (m : string),
       map fst (tickets_per_site (monthly_breakdown df m)) =
       first_seen [] (map Site (List.filter (fun r => opt_str_eqb (month_year_str r) m) df))).
Proof.
  intros H. specialize (H (normalize ex_two_sites) "2024-01"%string).
  vm_compute in H. discriminate.
Qed.

(** C5 (amended): the per-site table of a month lists each site of the
    month's records once, in ascending order of the site names (pandas'
    [groupby] sorts its keys; the chart keeps that order with
    [sort=None]), with that site's number of records. *)
Theorem tickets_per_site_ascending (df : list dispatch) (m : string) :
  let sel := List.filter (fun r => opt_str_eqb (month_year_str r) m) df in
  StronglySorted (fun x y => scmp (fst x) (fst y) = Lt)
                 (tickets_per_site (monthly_breakdown df m)) /\
  forall (s : string) (c : nat),
    In (s, c) (tickets_per_site (monthly_breakdown df m)) <->
    c = length (List.filter (fun r => String.eqb (Site r) s) sel) /\ 0 < c.
Proof.
  intros sel. split.
  - apply (agg_count_sorted scmp scmp_eq scmp_anti scmp_trans).
  - intros s c. simpl. rewrite (agg_count_spec scmp scmp_eq scmp_anti scmp_trans).
    rewrite (List.filter_ext _ _ (key_is_site s)). reflexivity.
Qed.

(** C3 (counterexample): the trend has a row for February 2024 although
    no record falls in it; its ticket count is 0. *)
Lemma monthly_data_has_empty_month :
  ~ (forall (df : list dispatch) (row : trend_row),
       In row (monthly_data df) -> 0 < tr_total_tickets row).
Proof.
  intros H. specialize (H (normalize ex_gap)
    (mkTrendRow (mkDate 2024 2 29) 0 None)).
  assert (Hin : In (mkTrendRow (mkDate 2024 2 29) 0 None) (monthly_data (normalize ex_gap))).
  { vm_compute. right. left. reflexivity. }
  specialize (H Hin). simpl in H. lia.
Qed.

(** C3 (amended): the trend has one row per calendar month from the
    earliest to the latest month of the data, consecutive and in
    increasing order (so no duplicates), each labelled with the last day
    of its month and counting the records of that month (0 for a month
    in between without records); every month of the data has its row. *)
Theorem monthly_data_contiguous (df : list dispatch) :
  let rows := monthly_data df in
  (exists lo, map (fun row => month_index (tr_CheckInDate row)) rows = seq lo (length rows)) /\
  (forall row, In row rows ->
     tr_CheckInDate row = month_end (month_index (tr_CheckInDate row)) /\
     tr_total_tickets row =
       length (List.filter (fun r => month_index (CheckInDate r) =? month_index (tr_CheckInDate row)) df) /\
     exists r1 r2, In r1 df /\ In r2 df /\
       month_index (CheckInDate r1) <= month_index (tr_CheckInDate row) <= month_index (CheckInDate r2)) /\
  (forall r, In r df ->
     exists row, In row rows /\ month_index (tr_CheckInDate row) = month_index (CheckInDate r)).
Proof.
  intros rows. unfold rows, monthly_data.
  remember (map (fun r => month_index (CheckInDate r)) df) as idxs eqn:Hidx.
  destruct idxs as [|i0 is].
  - destruct df; [|discriminate]. split; [exists 0; reflexivity|].
    split; intros ? [].
  - set (lo := fold_left Nat.min is i0). set (hi := fold_left Nat.max is i0).
    assert (Hlo : forall i, In i (i0 :: is) -> lo <= i).
    { intros i [<-|Hi]; destruct (fold_min_le is i0) as [H1 H2]; [exact H1|].
      rewrite List.Forall_forall in H2. exact (H2 i Hi). }
    assert (Hhi : forall i, In i (i0 :: is) -> i <= hi).
    { intros i [<-|Hi]; destruct (fold_max_ge is i0) as [H1 H2]; [exact H1|].
      rewrite List.Forall_forall in H2. exact (H2 i Hi). }
    assert (Hlo_in : In lo (i0 :: is)).
    { destruct (fold_min_in is i0) as [H|H]; [left; symmetry; exact H|right; exact H]. }
    assert (Hhi_in : In hi (i0 :: is)).
    { destruct (fold_max_in is i0) as [H|H]; [left; symmetry; exact H|right; exact H]. }
    assert (Hle : lo <= hi) by (apply (Nat.le_trans _ i0); [apply Hlo|apply Hhi]; left; reflexivity).
    split; [|split].
    + exists lo. rewrite !map_map, length_map, length_seq. simpl.
      rewrite (List.map_ext _ (fun i => i) month_index_end), map_id. reflexivity.
    + intros row Hrow. apply in_map_iff in Hrow. destruct Hrow as [i [<- Hi]].
      simpl. rewrite month_index_end. split; [reflexivity|]. split; [reflexivity|].
      apply in_seq in Hi.
      rewrite Hidx in Hlo_in, Hhi_in. apply in_map_iff in Hlo_in, Hhi_in.
      destruct Hlo_in as [r1 [E1 H1]], Hhi_in as [r2 [E2 H2]].
      exists r1, r2. split; [exact H1|]. split; [exact H2|]. lia.
    + intros r Hr.
      assert (Hin : In (month_index (CheckInDate r)) (i0 :: is))
        by (rewrite Hidx; apply in_map_iff; exists r; auto).
      eexists. split.
      * apply in_map_iff. exists (month_index (CheckInDate r)). split; [reflexivity|].
        apply in_seq. pose proof (Hlo _ Hin). pose proof (Hhi _ Hin). lia.
      * simpl. apply month_index_end.
Qed.

(** C1 (counterexample): unequal monthly volumes alone do not make the
    average differ from totalCount/totalMonths: site "A" with 1 and 2
    tickets in the only two months of the data averages 3/2 = 3/2. *)
Lemma site_average_uneven_equals_total_over_months :
  ~ (forall (df : list dispatch) (s : string) (q : Q),
       In (s, Some q) (avg_tickets_by_site df) ->
       (exists m1 m2, In m1 (site_months s df) /\ In m2 (site_months s df) /\
                      site_month_count s m1 df <> site_month_count s m2 df) ->
       ~ (q == Q_of_nat (length (site_records s df)) / Q_of_nat (length (all_months df)))%Q).
Proof.
  intros H. apply (H (normalize ex_uneven) "A"%string (3 # 2)%Q).
  - vm_compute. left. reflexivity.
  - exists "2024-01"%string, "2024-02"%string. vm_compute.
    split; [left; reflexivity|]. split; [right; left; reflexivity|]. discriminate.
  - vm_compute. reflexivity.
Qed.

(** C1 (amended): for a site with records, [avg_tickets_by_site] gives
    its number of records divided by the number of distinct months in
    which it has records (the mean of its per-(site, month) counts over
    those months).  This equals totalCount/totalMonths exactly when the
    site has records in every month of the data (so it differs whenever
    the site is absent in some month, but not merely because volumes are
    unequal), and it differs from the flat per-record average whenever
    two of its monthly counts are unequal. *)
Theorem site_monthly_average_two_stage (df : list dispatch) (s : string) :
  site_records s df <> [] ->
  exists q, In (s, Some q) (avg_tickets_by_site df) /\
    (q == Q_of_nat (length (site_records s df)) / Q_of_nat (length (site_months s df)))%Q /\
    ((q == Q_of_nat (length (site_records s df)) / Q_of_nat (length (all_months df)))%Q <->
       (forall m, In m (all_months df) -> In m (site_months s df))) /\
    ((exists m1 m2, In m1 (site_months s df) /\ In m2 (site_months s df) /\
                    site_month_count s m1 df <> site_month_count s m2 df) ->
       exists f, flat_site_average s df = Some f /\ ~ (q == f)%Q).
Proof.
  intros Hne. pose proof (avg_site_in s df Hne) as Hin.
  pose proof (site_counts_sum s df) as Hsum. pose proof (site_counts_length s df) as Hlen.
  assert (HN : 0 < length (site_records s df))
    by (destruct (site_records s df); [contradiction|simpl; lia]).
  assert (HCne : site_counts s df <> []).
  { intros HC. rewrite HC in Hsum. simpl in Hsum. lia. }
  assert (HM : 0 < length (site_months s df)).
  { rewrite <- Hlen. destruct (site_counts s df); [contradiction|simpl; lia]. }
  destruct (mean_nat _ HCne) as [q [Hmean Hq]]. rewrite Hmean in Hin.
  rewrite Hsum, Hlen in Hq.
  pose proof (site_months_incl s df) as Hincl.
  assert (HMT : length (site_months s df) <= length (all_months df))
    by (apply NoDup_incl_length; [apply NoDup_nodup|exact Hincl]).
  exists q. split; [exact Hin|]. split; [exact Hq|]. split.
  - rewrite Hq. rewrite (Qdiv_nat_eq _ _ _ _ HM) by lia. split.
    + intros Heq. apply Nat.mul_cancel_l in Heq; [|lia].
      assert (HT : length (all_months df) <= length (site_months s df)) by lia.
      exact (NoDup_length_incl (NoDup_nodup _ _) HT Hincl).
    + intros Hall. f_equal. apply Nat.le_antisymm; [|exact HMT].
      apply NoDup_incl_length; [apply NoDup_nodup|exact Hall].
  - intros [m1 [m2 [Hm1 [Hm2 Hdiff]]]].
    set (L := map (fun r => same_month_count r df) (site_records s df)).
    assert (HLne : L <> []).
    { unfold L. destruct (site_records s df); [contradiction|discriminate]. }
    destruct (mean_nat L HLne) as [f [Hf Hfq]].
    exists f. split.
    + unfold flat_site_average. rewrite <- Hf. unfold L. rewrite map_map. reflexivity.
    + intros Hqf. unfold L in Hfq. rewrite flat_sum, length_map in Hfq.
      rewrite Hq, Hfq in Hqf. apply (Qdiv_nat_eq _ _ _ _ HM HN) in Hqf.
      pose proof (sum_sq_lt (site_counts s df)) as Hlt.
      rewrite Hsum, Hlen in Hlt.
      assert (H2 : length (site_records s df) * length (site_records s df) <
                   length (site_months s df) * sumsq (site_counts s df)).
      { apply Hlt. exists (site_month_count s m1 df), (site_month_count s m2 df).
        split; [apply site_counts_elem, Hm1|]. split; [apply site_counts_elem, Hm2|].
        exact Hdiff. }
      nia.
Qed.

(** C7: a record whose subtype or whose item is missing is dropped
    before counting, in the "all months" mode and in a single-month
    mode: it changes no subtype's count, and the counts add up to the
    number of records with both fields in the selected months. *)
Theorem subtype_breakdown_excludes_missing (df1 df2 : list dispatch) (r : dispatch)
  (pie_month : string) :
  (Subtype r = None \/ Item r = None) ->
  data_to_chart_subtype (df1 ++ r :: df2) pie_month = data_to_chart_subtype (df1 ++ df2) pie_month /\
  list_sum (map snd (data_to_chart_subtype (df1 ++ r :: df2) pie_month)) =
  length (List.filter (fun x => is_some (Subtype x) && is_some (Item x) &&
            (String.eqb pie_month "All Tickets" || opt_str_eqb (month_year_str x) pie_month))
          (df1 ++ df2)).
Proof.
  intros Hr.
  assert (Heq : data_to_chart_subtype (df1 ++ r :: df2) pie_month =
                data_to_chart_subtype (df1 ++ df2) pie_month).
  { unfold data_to_chart_subtype, monthly_filtered_data. rewrite filtered_tickets_skip by exact Hr.
    reflexivity. }
  split; [exact Heq|]. rewrite Heq.
  unfold data_to_chart_subtype. rewrite (agg_count_total scmp scmp_eq).
  unfold monthly_filtered_data, filtered_tickets.
  destruct (String.eqb pie_month "All Tickets"); simpl; rewrite !filter_filter_andb;
    f_equal; apply List.filter_ext; intros x;
    destruct (is_some (Subtype x)), (is_some (Item x)); simpl; try reflexivity.
  all: rewrite ?andb_true_r; reflexivity.
Qed.

(** C10: in every reachable session state (reruns with any data and any
    user events in between, clicks on the pie chart included),
    [st.session_state['selection']] is unset or [None], a rerun leaves it
    [None], the subtype read from the chart is [None], the initial index
    of the subtype selectbox is 0 ("All Subtypes"), and the subtype the
    selectbox returns is "All Subtypes" or the value held under the
    dropdown's own key. *)
Theorem chart_selection_never_populated (u : ui) (df : list dispatch) :
  reachable u ->
  selection_unset u /\
  session_state (fst (rerun u df)) !! "selection"%string = Some SNone /\
  (forall c i v, In (OSubtypeSelect c i v) (snd (rerun u df)) ->
     c = None /\ i = 0 /\
     (v = "All Subtypes"%string \/ session_state u !! "subtype_select_box"%string = Some (SStr v))).
Proof.
  intros Hr. pose proof (reachable_selection_unset u Hr) as Hu.
  destruct (rerun_facts u df Hu) as [H1 [H2 _]]. auto.
Qed.

(* ------------------------------------------------------------------ *)
(** * Witnesses *)


(** Site "A" of [ex_uneven] has records, and its monthly counts 1 and
    2 differ: the average is listed and differs from the flat one. *)
Lemma site_monthly_average_two_stage_witness :
  site_records "A" (normalize ex_uneven) <> [] /\
  exists q, In ("A"%string, Some q) (avg_tickets_by_site (normalize ex_uneven)) /\
    exists f, flat_site_average "A" (normalize ex_uneven) = Some f /\ ~ (q == f)%Q.
Proof.
  assert (Hne : site_records "A" (normalize ex_uneven) <> []) by (vm_compute; discriminate).
  split; [exact Hne|].
  destruct (site_monthly_average_two_stage (normalize ex_uneven) "A" Hne)
    as [q [Hq [_ [_ Hflat]]]].
  exists q. split; [exact Hq|]. apply Hflat.
  exists "2024-01"%string, "2024-02"%string.
  split; [vm_compute; auto|]. split; [vm_compute; auto|]. vm_compute. discriminate.
Defined.

(** A record with no item, between two complete ones, leaves the
    subtype counts of "All Tickets" unchanged. *)
Lemma subtype_breakdown_excludes_missing_witness :
  (Subtype (mkDispatch (mkDate 2024 1 3) (HNum (NFin 1)) "A" (Some "Hardware") None (Some "2024-01"))
     = None \/
   Item (mkDispatch (mkDate 2024 1 3) (HNum (NFin 1)) "A" (Some "Hardware") None (Some "2024-01"))
     = None) /\
  data_to_chart_subtype
    ([mkDispatch (mkDate 2024 1 2) (HNum (NFin 1)) "A" (Some "Hardware") (Some "x") (Some "2024-01")] ++
     mkDispatch (mkDate 2024 1 3) (HNum (NFin 1)) "A" (Some "Hardware") None (Some "2024-01") ::
     [mkDispatch (mkDate 2024 2 2) (HNum (NFin 1)) "B" (Some "Network") (Some "y") (Some "2024-02")])
    "All Tickets"
  = data_to_chart_subtype
    ([mkDispatch (mkDate 2024 1 2) (HNum (NFin 1)) "A" (Some "Hardware") (Some "x") (Some "2024-01")] ++
     [mkDispatch (mkDate 2024 2 2) (HNum (NFin 1)) "B" (Some "Network") (Some "y") (Some "2024-02")])
    "All Tickets".
Proof.
  assert (Hr : Subtype (mkDispatch (mkDate 2024 1 3) (HNum (NFin 1)) "A" (Some "Hardware") None
                          (Some "2024-01")) = None \/
               Item (mkDispatch (mkDate 2024 1 3) (HNum (NFin 1)) "A" (Some "Hardware") None
                       (Some "2024-01")) = None) by (right; reflexivity).
  split; [exact Hr|].
  exact (proj1 (subtype_breakdown_excludes_missing _ _ _ "All Tickets" Hr)).
Defined.

(** After a first run on [ex_records] and a pick in the subtype
    dropdown, the state is reachable and the next run leaves
    ['selection'] at [None]. *)
Lemma chart_selection_never_populated_witness :
  reachable (apply_event (EvSelectKeyed "subtype_select_box" "Hardware")
               (fst (rerun ui_init ex_records))) /\
  session_state (fst (rerun (apply_event (EvSelectKeyed "subtype_select_box" "Hardware")
                               (fst (rerun ui_init ex_records))) ex_records))
    !! "selection"%string = Some SNone.
Proof.
  assert (Hr : reachable (apply_event (EvSelectKeyed "subtype_select_box" "Hardware")
                            (fst (rerun ui_init ex_records))))
    by (apply reach_event; apply reach_rerun; apply reach_init).
  split; [exact Hr|].
  exact (proj1 (proj2 (chart_selection_never_populated _ ex_records Hr))).
Defined.

(* ------------------------------------------------------------------ *)
(** * Further properties of the pipeline *)

(** The month count table (lines 163-165) on the normalized data is in
    ascending month-key order, has one row per month key of the data
    with the number of records of that month, and its counts add up to
    the number of records. *)
Theorem tickets_by_month_counts (df : list dispatch) :
  StronglySorted (fun x y => scmp (fst x) (fst y) = Lt) (tickets_by_month (normalize df)) /\
  (forall m c, In (m, c) (tickets_by_month (normalize df)) <->
     c = length (List.filter (fun r => String.eqb (period_str (CheckInDate r)) m) df) /\ 0 < c) /\
  list_sum (map snd (tickets_by_month (normalize df))) = length df.
Proof.
  unfold tickets_by_month.
  split; [apply (agg_count_sorted scmp scmp_eq scmp_anti scmp_trans)|split].
  - intros m c. rewrite (agg_count_spec scmp scmp_eq scmp_anti scmp_trans).
    unfold normalize. rewrite filter_map_comm, length_map.
    rewrite (List.filter_ext _ (fun r => String.eqb (period_str (CheckInDate r)) m)); [reflexivity|].
    intros r. rewrite key_is_opt_str. reflexivity.
  - rewrite (agg_count_total scmp scmp_eq). unfold normalize.
    rewrite filter_map_comm, length_map.
    rewrite (List.filter_ext _ (fun _ => true)) by (intros; reflexivity).
    rewrite filter_true. reflexivity.
Qed.

(** The month key (line 41) orders months chronologically among
    four-digit years: for years 1000 to 9999 and months 1 to 12,
    comparing two keys as strings gives the order of their months. *)
Theorem month_key_chronological (d1 d2 : date) :
  10 ^ 3 <= year d1 < 10 ^ 4 -> 10 ^ 3 <= year d2 < 10 ^ 4 ->
  1 <= month d1 <= 12 -> 1 <= month d2 <= 12 ->
  String.compare (period_str d1) (period_str d2) = Nat.compare (month_index d1) (month_index d2).
Proof. exact (period_str_compare d1 d2). Qed.

(** The options of the breakdown month selector (line 46) are the month
    keys of the data, each once, in strictly descending string order. *)
Theorem breakdown_month_options_latest_first (df : list dispatch) :
  StronglySorted (fun a b => scmp a b = Gt) (breakdown_month_options (normalize df)) /\
  (forall m, In m (breakdown_month_options (normalize df)) <->
             exists r, In r df /\ period_str (CheckInDate r) = m).
Proof.
  split; [apply breakdown_month_options_desc|apply breakdown_month_options_in].
Qed.

Lemma init_selection_other (u : ui) (k : string) :
  k <> "selection"%string -> session_state (init_selection u) !! k = session_state u !! k.
Proof.
  intros Hne. unfold init_selection. destruct (session_state u !! "selection"%string); [reflexivity|].
  cbn [session_state]. apply lookup_insert_ne. congruence.
Qed.

Lemma breakdown_first_option_latest (df : list dispatch) :
  (forall r, In r df -> 10 ^ 3 <= year (CheckInDate r) < 10 ^ 4 /\ 1 <= month (CheckInDate r) <= 12) ->
  df <> [] ->
  exists r, In r df /\ period_str (CheckInDate r) = nth 0 (breakdown_month_options (normalize df)) ""%string /\
    forall r', In r' df -> month_index (CheckInDate r') <= month_index (CheckInDate r).
Proof.
  intros Hval Hdf.
  pose proof (breakdown_month_options_nonempty df Hdf) as Hne.
  pose proof (breakdown_month_options_desc df) as Hs.
  pose proof (fun m => proj1 (breakdown_month_options_in df m)) as Hto.
  pose proof (fun m => proj2 (breakdown_month_options_in df m)) as Hfrom.
  destruct (breakdown_month_options (normalize df)) as [|h rest];
    [cbn [length] in Hne; lia|].
  cbn [nth].
  destruct (Hto h (or_introl eq_refl)) as [r [Hr Hp]].
  exists r. split; [exact Hr|]. split; [exact Hp|].
  intros r' Hr'.
  assert (Hi : In (period_str (CheckInDate r')) (h :: rest)) by (apply Hfrom; exists r'; auto).
  destruct (Hval r Hr) as [Hy Hmo]. destruct (Hval r' Hr') as [Hy' Hmo'].
  pose proof (period_str_compare (CheckInDate r) (CheckInDate r') Hy Hy' Hmo Hmo') as Hc.
  rewrite Hp in Hc. destruct Hi as [Heq|Hi].
  - rewrite <- Heq in Hc. pose proof (proj2 (scmp_eq h h) eq_refl) as He. unfold scmp in He.
    rewrite He in Hc. symmetry in Hc. apply Nat.compare_eq_iff in Hc. lia.
  - inversion Hs as [|? ? Hs' Hf]; subst. rewrite List.Forall_forall in Hf.
    specialize (Hf _ Hi). unfold scmp in Hf. rewrite Hf in Hc. symmetry in Hc.
    apply Nat.compare_gt_iff in Hc. lia.
Qed.

(** The month of the tickets-per-site chart (lines 46-47, 74-76) is
    the month held under the selector's key when it is still a month of
    the data, and otherwise the latest month of the data (for years 1000
    to 9999 and months 1 to 12). *)
Theorem breakdown_shown_month (u : ui) (df : list dispatch) (m : string)
  (t : list (string * nat)) :
  (forall r, In r df -> 10 ^ 3 <= year (CheckInDate r) < 10 ^ 4 /\ 1 <= month (CheckInDate r) <= 12) ->
  In (OBarTicketsPerSite m t) (snd (rerun u df)) ->
  (session_state u !! "breakdown_month_selector"%string = Some (SStr m) /\
   exists r, In r df /\ period_str (CheckInDate r) = m) \/
  ((forall v, session_state u !! "breakdown_month_selector"%string = Some (SStr v) ->
      forall r, In r df -> period_str (CheckInDate r) <> v) /\
   exists r, In r df /\ period_str (CheckInDate r) = m /\
     forall r', In r' df -> month_index (CheckInDate r') <= month_index (CheckInDate r)).
Proof.
  intros Hval Hin. destruct df as [|r0 df'].
  { unfold rerun in Hin. cbn [snd In] in Hin. destruct Hin as [H|[]]. discriminate H. }
  rewrite rerun_split in Hin by discriminate.
  assert (Hm : fst (selectbox_keyed (init_selection u) "breakdown_month_selector"
                      (breakdown_month_options (normalize (r0 :: df'))) 0) = m).
  { apply in_app_or in Hin. destruct Hin as [Hin|Hin].
    - destruct Hin as [H|[H|[H|[H|[H|[H|[]]]]]]]; try discriminate H.
      apply (f_equal (fun o => match o with OBarTicketsPerSite a _ => a | _ => m end)) in H.
      cbv beta iota in H. exact H.
    - apply subtype_section_shape in Hin. discriminate Hin. }
  unfold selectbox_keyed in Hm. cbn [fst] in Hm.
  rewrite init_selection_other in Hm by discriminate.
  pose proof (breakdown_first_option_latest (r0 :: df') Hval ltac:(discriminate)) as Hlatest.
  destruct (session_state u !! "breakdown_month_selector"%string) as [[|v|d]|] eqn:Ek.
  - right. split; [intros v Hv; discriminate Hv|]. rewrite <- Hm. exact Hlatest.
  - destruct (mem_str v (breakdown_month_options (normalize (r0 :: df')))) eqn:Ev.
    + left. subst m. split; [reflexivity|].
      apply (proj1 (breakdown_month_options_in _ _)). apply (proj1 (mem_str_In _ _)). exact Ev.
    + right. split; [|rewrite <- Hm; exact Hlatest].
      intros v' Hv' r Hr Heq. injection Hv' as <-.
      assert (Hi : In v (breakdown_month_options (normalize (r0 :: df'))))
        by (apply (proj2 (breakdown_month_options_in _ _)); exists r; auto).
      apply (proj2 (mem_str_In _ _)) in Hi. rewrite Hi in Ev. discriminate Ev.
  - right. split; [intros v Hv; discriminate Hv|]. rewrite <- Hm. exact Hlatest.
  - right. split; [intros v Hv; discriminate Hv|]. rewrite <- Hm. exact Hlatest.
Qed.


(** A month the user picked in the breakdown month selector (line 47)
    is the month the tickets-per-site chart shows on the next rerun,
    with the per-site counts of that month. *)
Theorem breakdown_pick_shown (u : ui) (df : list dispatch) (v m : string)
  (t : list (string * nat)) :
  In v (breakdown_month_options (normalize df)) ->
  In (OBarTicketsPerSite m t)
     (snd (rerun (apply_event (EvSelectKeyed "breakdown_month_selector" v) u) df)) ->
  m = v /\ t = tickets_per_site (monthly_breakdown (normalize df) v).
Proof.
  intros Hv Hin. destruct df as [|r0 df'].
  { cbn in Hv. contradiction. }
  rewrite rerun_split in Hin by discriminate.
  rewrite (picked_value_shown u "breakdown_month_selector" v _ 0 eq_refl ltac:(discriminate) Hv)
    in Hin.
  apply in_app_or in Hin. destruct Hin as [Hin|Hin];
    [|apply subtype_section_shape in Hin; discriminate Hin].
  destruct Hin as [H|[H|[H|[H|[H|[H|[]]]]]]]; try discriminate H.
  pose proof (f_equal (fun o => match o with OBarTicketsPerSite a _ => a | _ => m end) H) as H1.
  pose proof (f_equal (fun o => match o with OBarTicketsPerSite _ b => b | _ => t end) H) as H2.
  cbv beta iota in H1, H2. auto.
Qed.

(** The info message "No site data found for this subtype." (line 281)
    is never shown: the subtype dropdown only offers subtypes counted in
    the pie table of the same month, so the filtered rows are never
    empty. *)
Theorem no_site_data_info_unreachable (u : ui) (df : list dispatch) :
  ~ In (OInfo "No site data found for this subtype.") (snd (rerun u df)).
Proof.
  destruct df as [|r0 df'].
  { unfold rerun. cbn [snd In]. intros [H|[]]. discriminate H. }
  destruct (rerun_subtype_part u (r0 :: df') ltac:(discriminate)) as [u1 Hu1].
  rewrite (Hu1 (OInfo _) eq_refl). apply subtype_section_no_empty_info.
Qed.

(** A site breakdown (lines 254-281) is shown only for a chosen subtype
    other than "All Subtypes"; its sites are in ascending order and its
    counts add up to the count of that subtype in the pie table shown in
    the same rerun. *)
Theorem site_breakdown_matches_pie (u : ui) (df : list dispatch) (s : string)
  (t : list (string * nat)) :
  In (OSiteBreakdown s t) (snd (rerun u df)) ->
  s <> "All Subtypes"%string /\
  StronglySorted (fun x y => scmp (fst x) (fst y) = Lt) t /\
  exists m tab c, In (OPie m tab) (snd (rerun u df)) /\ In (s, c) tab /\
                  list_sum (map snd t) = c.
Proof.
  intros Hin. destruct df as [|r0 df'].
  { unfold rerun in Hin. cbn [snd In] in Hin. destruct Hin as [H|[]]. discriminate H. }
  destruct (rerun_subtype_part u (r0 :: df') ltac:(discriminate)) as [u1 Hu1].
  rewrite (Hu1 (OSiteBreakdown s t) eq_refl) in Hin.
  destruct (subtype_section_site_breakdown _ _ _ _ Hin) as [Hs [Hsort [m [tab [c [Hp [Ht Hc]]]]]]].
  split; [exact Hs|]. split; [exact Hsort|].
  exists m, tab, c. split; [rewrite (Hu1 (OPie m tab) eq_refl); exact Hp|]. auto.
Qed.

(** When some record has both a subtype and an item, the pie chart
    (lines 187-203) always has at least one slice, and its month is
    "All Tickets" or the month of such a record. *)
Theorem pie_nonempty_on_complete_records (u : ui) (df : list dispatch) (m : string)
  (tab : list (string * nat)) :
  filtered_tickets df <> [] ->
  In (OPie m tab) (snd (rerun u df)) ->
  tab <> [] /\
  (m = "All Tickets"%string \/
   exists r, In r (filtered_tickets df) /\ period_str (CheckInDate r) = m).
Proof.
  intros Hf Hin. destruct df as [|r0 df'].
  { unfold rerun in Hin. cbn [snd In] in Hin. destruct Hin as [H|[]]. discriminate H. }
  destruct (rerun_subtype_part u (r0 :: df') ltac:(discriminate)) as [u1 Hu1].
  rewrite (Hu1 (OPie m tab) eq_refl) in Hin.
  assert (Hf' : filtered_tickets (normalize (r0 :: df')) <> []).
  { rewrite filtered_tickets_normalize. unfold normalize.
    destruct (filtered_tickets (r0 :: df')); [contradiction|discriminate]. }
  destruct (subtype_section_pie _ _ _ _ Hf' Hin) as [Ht Hm].
  split; [exact Ht|]. destruct Hm as [Hm|[x [Hx Hmx]]]; [left; exact Hm|right].
  rewrite filtered_tickets_normalize in Hx. unfold normalize in Hx.
  apply in_map_iff in Hx. destruct Hx as [r [<- Hr]].
  exists r. split; [exact Hr|]. cbn [month_year_str normalize_row] in Hmx.
  congruence.
Qed.

(** Every per-site monthly average (lines 137-144) is a number, at least
    1 and at most the site's number of records with a month. *)
Theorem site_average_bounds (df : list dispatch) (s : string) (o : option Q) :
  In (s, o) (avg_tickets_by_site df) ->
  exists q, o = Some q /\ (1 <= q)%Q /\ (q <= Q_of_nat (length (site_records s df)))%Q.
Proof.
  intros Hin. pose proof (avg_site_has_records df s o Hin) as Hne.
  pose proof (avg_site_in s df Hne) as Hin'.
  pose proof (sorted_keys_unique _ s o _ (avg_tickets_by_site_sorted df) Hin Hin') as ->.
  assert (Hc : site_counts s df <> []).
  { intros E. pose proof (site_counts_sum s df) as Hs. rewrite E in Hs. cbn in Hs.
    destruct (site_records s df); [contradiction|discriminate Hs]. }
  destruct (mean_nat _ Hc) as [q [Hq Hqe]]. exists q. split; [exact Hq|].
  rewrite site_counts_sum in Hqe.
  pose proof (length_le_sum _ (site_counts_pos s df)) as Hle.
  rewrite site_counts_sum in Hle.
  assert (Hl : 0 < length (site_counts s df)) by (destruct (site_counts s df); [contradiction|simpl; lia]).
  assert (HL : (0 < Q_of_nat (length (site_counts s df)))%Q) by (unfold Q_of_nat, Qlt; simpl; lia).
  rewrite Hqe. split.
  - apply Qle_shift_div_l; [exact HL|]. rewrite Qmult_1_l. apply Q_of_nat_le. exact Hle.
  - apply Qle_shift_div_r; [exact HL|]. rewrite <- Q_of_nat_mul. apply Q_of_nat_le. nia.
Qed.


(** In every reachable session state a rerun never reaches the error
    branch of the chart-selection read (lines 230-233). *)
Theorem rerun_never_errors (u : ui) (df : list dispatch) (e : string) :
  reachable u -> ~ In (OError e) (snd (rerun u df)).
Proof.
  intros Hr. exact (proj2 (proj2 (rerun_facts u df (reachable_selection_unset u Hr))) e).
Qed.

(** The no-data warning (line 286) is shown exactly when the fetch
    returned no row, and it is the only warning of the script. *)
Theorem warning_iff_no_rows (u : ui) (df : list dispatch) (w : string) :
  In (OWarning w) (snd (rerun u df)) <-> df = [] /\ w = no_data_warning.
Proof.
  split.
  - destruct df as [|r0 df'].
    + unfold rerun. cbn [snd In]. intros [H|[]]. split; [reflexivity|].
      apply (f_equal (fun o => match o with OWarning a => a | _ => w end)) in H.
      cbv beta iota in H. symmetry. exact H.
    + rewrite rerun_split by discriminate. intros Hin.
      apply in_app_or in Hin. destruct Hin as [Hin|Hin];
        [|apply subtype_section_shape in Hin; discriminate Hin].
      destruct Hin as [H|[H|[H|[H|[H|[H|[]]]]]]]; discriminate H.
  - intros [-> ->]. unfold rerun. cbn [snd In]. left. reflexivity.
Qed.

(** Every record of the data falls in exactly one month of the breakdown
    month selector (lines 46-56): the Total Tickets of all its months
    add up to the number of records. *)
Theorem breakdown_months_partition (df : list dispatch) :
  list_sum (map (fun m => total_tickets (monthly_breakdown (normalize df) m))
                (breakdown_month_options (normalize df))) = length df.
Proof.
  rewrite (List.map_ext _ (fun m => length (List.filter
             (fun r => String.eqb (period_str (CheckInDate r)) m) df))).
  2:{ intros m. unfold monthly_breakdown. cbn [total_tickets]. unfold normalize.
      rewrite filter_map_comm, length_map. reflexivity. }
  apply count_partition.
  - assert (Hs := breakdown_month_options_desc df).
    induction Hs as [|a l Hs IH Hall]; constructor; [|exact IH].
    rewrite List.Forall_forall in Hall. intros Ha. specialize (Hall a Ha).
    rewrite (proj2 (scmp_eq a a) eq_refl) in Hall. discriminate Hall.
  - intros r Hr. apply breakdown_month_options_in. exists r. auto.
Qed.

(* ------------------------------------------------------------------ *)
(** * Witnesses of the further properties *)

(** December 2023 comes before January 2024, as string keys too. *)
Lemma month_key_chronological_witness :
  10 ^ 3 <= year (mkDate 2023 12 1) < 10 ^ 4 /\ 10 ^ 3 <= year (mkDate 2024 1 15) < 10 ^ 4 /\
  1 <= month (mkDate 2023 12 1) <= 12 /\ 1 <= month (mkDate 2024 1 15) <= 12 /\
  String.compare (period_str (mkDate 2023 12 1)) (period_str (mkDate 2024 1 15)) =
  Nat.compare (month_index (mkDate 2023 12 1)) (month_index (mkDate 2024 1 15)).
Proof.
  assert (H1 : 10 ^ 3 <= year (mkDate 2023 12 1) < 10 ^ 4) by (cbn; lia).
  assert (H2 : 10 ^ 3 <= year (mkDate 2024 1 15) < 10 ^ 4) by (cbn; lia).
  assert (H3 : 1 <= month (mkDate 2023 12 1) <= 12) by (cbn; lia).
  assert (H4 : 1 <= month (mkDate 2024 1 15) <= 12) by (cbn; lia).
  refine (conj H1 (conj H2 (conj H3 (conj H4 _)))).
  exact (month_key_chronological _ _ H1 H2 H3 H4).
Defined.

(** A session whose selector holds "2023-11", a month that is not in
    [ex_records], shows February 2024, the latest month of the data. *)
Lemma breakdown_shown_month_witness :
  let u := mkUi {[ "breakdown_month_selector"%string := SStr "2023-11" ]} ∅ in
  (forall r, In r ex_records -> 10 ^ 3 <= year (CheckInDate r) < 10 ^ 4 /\ 1 <= month (CheckInDate r) <= 12) /\
  In (OBarTicketsPerSite "2024-02" [("B", 1)]) (snd (rerun u ex_records)) /\
  ((session_state u !! "breakdown_month_selector"%string = Some (SStr "2024-02") /\
    exists r, In r ex_records /\ period_str (CheckInDate r) = "2024-02"%string) \/
   ((forall v, session_state u !! "breakdown_month_selector"%string = Some (SStr v) ->
       forall r, In r ex_records -> period_str (CheckInDate r) <> v) /\
    exists r, In r ex_records /\ period_str (CheckInDate r) = "2024-02"%string /\
      forall r', In r' ex_records -> month_index (CheckInDate r') <= month_index (CheckInDate r))).
Proof.
  intros u.
  assert (H1 : forall r, In r ex_records ->
                 10 ^ 3 <= year (CheckInDate r) < 10 ^ 4 /\ 1 <= month (CheckInDate r) <= 12).
  { intros r Hr. cbn in Hr. destruct Hr as [<-|[<-|[<-|[]]]]; cbn; lia. }
  assert (H2 : In (OBarTicketsPerSite "2024-02" [("B", 1)]) (snd (rerun u ex_records))).
  { unfold u. vm_compute. repeat (first [left; reflexivity | right]). }
  refine (conj H1 (conj H2 _)).
  exact (breakdown_shown_month _ _ _ _ H1 H2).
Defined.

(** Picking January 2024 shows January's per-site counts. *)
Lemma breakdown_pick_shown_witness :
  In "2024-01"%string (breakdown_month_options (normalize ex_records)) /\
  In (OBarTicketsPerSite "2024-01" [("A", 2)])
     (snd (rerun (apply_event (EvSelectKeyed "breakdown_month_selector" "2024-01") ui_init)
                 ex_records)) /\
  "2024-01"%string = "2024-01"%string /\
  [("A", 2)] = tickets_per_site (monthly_breakdown (normalize ex_records) "2024-01").
Proof.
  assert (H1 : In "2024-01"%string (breakdown_month_options (normalize ex_records))).
  { vm_compute. repeat (first [left; reflexivity | right]). }
  assert (H2 : In (OBarTicketsPerSite "2024-01" [("A", 2)])
                  (snd (rerun (apply_event (EvSelectKeyed "breakdown_month_selector" "2024-01")
                                           ui_init) ex_records))).
  { vm_compute. repeat (first [left; reflexivity | right]). }
  refine (conj H1 (conj H2 _)).
  exact (breakdown_pick_shown _ _ _ _ _ H1 H2).
Defined.

(** After the user picked "Hardware" in the subtype dropdown, the site
    breakdown of [ex_subtypes] is shown. *)
Lemma site_breakdown_matches_pie_witness :
  In (OSiteBreakdown "Hardware" [("A", 1); ("B", 1)])
     (snd (rerun (apply_event (EvSelectKeyed "subtype_select_box" "Hardware") ui_init)
                 ex_subtypes)) /\
  "Hardware"%string <> "All Subtypes"%string /\
  StronglySorted (fun x y => scmp (fst x) (fst y) = Lt) [("A", 1); ("B", 1)] /\
  exists m tab c,
    In (OPie m tab) (snd (rerun (apply_event (EvSelectKeyed "subtype_select_box" "Hardware") ui_init)
                                ex_subtypes)) /\
    In ("Hardware"%string, c) tab /\ list_sum (map snd [("A", 1); ("B", 1)]) = c.
Proof.
  assert (H : In (OSiteBreakdown "Hardware" [("A", 1); ("B", 1)])
                 (snd (rerun (apply_event (EvSelectKeyed "subtype_select_box" "Hardware") ui_init)
                             ex_subtypes))).
  { vm_compute. repeat (first [left; reflexivity | right]). }
  split; [exact H|]. exact (site_breakdown_matches_pie _ _ _ _ H).
Defined.

(** [ex_subtypes] has complete records; the pie of a fresh session. *)
Lemma pie_nonempty_on_complete_records_witness :
  filtered_tickets ex_subtypes <> [] /\
  In (OPie "All Tickets" [("Hardware", 2); ("Network", 1)]) (snd (rerun ui_init ex_subtypes)) /\
  [("Hardware"%string, 2); ("Network"%string, 1)] <> [] /\
  ("All Tickets"%string = "All Tickets"%string \/
   exists r, In r (filtered_tickets ex_subtypes) /\ period_str (CheckInDate r) = "All Tickets"%string).
Proof.
  assert (H1 : filtered_tickets ex_subtypes <> []) by (vm_compute; discriminate).
  assert (H2 : In (OPie "All Tickets" [("Hardware", 2); ("Network", 1)])
                  (snd (rerun ui_init ex_subtypes))).
  { vm_compute. repeat (first [left; reflexivity | right]). }
  refine (conj H1 (conj H2 _)).
  exact (pie_nonempty_on_complete_records _ _ _ _ H1 H2).
Defined.

(** Site A of [ex_uneven] averages 3/2 tickets a month. *)
Lemma site_average_bounds_witness :
  In ("A"%string, Some (3 # 2)%Q) (avg_tickets_by_site (normalize ex_uneven)) /\
  exists q, Some (3 # 2)%Q = Some q /\ (1 <= q)%Q /\
            (q <= Q_of_nat (length (site_records "A" (normalize ex_uneven))))%Q.
Proof.
  assert (H : In ("A"%string, Some (3 # 2)%Q) (avg_tickets_by_site (normalize ex_uneven))).
  { vm_compute. left. reflexivity. }
  split; [exact H|]. exact (site_average_bounds _ _ _ H).
Defined.


(** The error branch of lines 230-233 is live in the model: a session
    whose selection holds a string, which no widget of the script ever
    stores, makes the rerun show [AttributeError]. *)
Lemma string_selection_errors :
  In (OError "AttributeError")
     (snd (rerun (mkUi {[ "selection"%string := SStr "x" ]} ∅) ex_subtypes)).
Proof. vm_compute. repeat (first [left; reflexivity | right]). Qed.

(** After a first rerun on [ex_subtypes] and a click on the Hardware
    slice of the pie, the session is reachable, and its rerun shows no
    [AttributeError], the error the chart-selection read would raise on
    a selection that is not a dict. *)
Lemma rerun_never_errors_witness :
  let u := apply_event (EvChartClick "Hardware") (fst (rerun ui_init ex_subtypes)) in
  reachable u /\ ~ In (OError "AttributeError") (snd (rerun u ex_subtypes)).
Proof.
  intros u.
  assert (H : reachable u) by exact (reach_event _ _ (reach_rerun _ _ reach_init)).
  split; [exact H|]. exact (rerun_never_errors _ _ _ H).
Defined.
